(** * Retry policy with location failover (azure-data-tables, [_policies.py])

    A shallow embedding of [is_exhausted], [is_retry] and the
    [TablesRetryPolicy] family ([configure_retries], [increment],
    [_set_next_host_location], [get_backoff_time], [sleep], [send]),
    followed by the properties of the retry protocol.

    Python integers are unbounded, hence [Z]; dictionaries are finite maps;
    the objects that Python mutates in place (the settings dictionary and the
    request) are threaded explicitly through the functions that change them. *)

From Stdlib Require Import ZArith QArith Lia Lqa.
From stdpp Require Import base decidable countable option list strings gmap.

Local Open Scope Z_scope.

(** ** Data model *)

(** Modelled from the spec: [LocationMode] is declared in [_models.py], which
    is not among the sources; the spec gives it as the enumeration
    {PRIMARY, SECONDARY}. *)
Inductive LocationMode : Set := PRIMARY | SECONDARY.

#[global] Instance LocationMode_eq_dec : EqDecision LocationMode.
Proof. solve_decision. Defined.

#[global] Instance LocationMode_countable : Countable LocationMode.
Proof.
  refine (inj_countable'
            (fun m => match m with PRIMARY => false | SECONDARY => true end)
            (fun b => if b then SECONDARY else PRIMARY) _).
  intros []; reflexivity.
Defined.

(** The three classes of [AzureError] that [increment] tells apart with
    [isinstance]; the number identifies the exception object. *)
Inductive AzureError : Set :=
| ServiceRequestError (ident : nat)
| ServiceResponseError (ident : nat)
| OtherAzureError (ident : nat).

(** The request URL in the six-component form [urlparse] gives it.  The
    policy parses [request.url], replaces one component and stores what
    [geturl()] writes; the record stands for the components handed to
    [geturl()]. *)
Record Url : Set := mkUrl {
  scheme : string;
  netloc : string;
  path : string;
  params : string;
  query : string;
  fragment : string
}.

(** [url._replace(netloc=...)]. *)
Definition replace_netloc (u : Url) (host : string) : Url :=
  {| scheme := scheme u; netloc := host; path := path u;
     params := params u; query := query u; fragment := fragment u |}.

(** A request body: absent, a byte buffer, or a stream (an object with a
    [read] attribute).  For a stream, [tell] is [None] when [body.tell()]
    raises [AttributeError] or [UnsupportedOperation], and [seek pos] is
    [false] when [body.seek(pos, SEEK_SET)] raises [UnsupportedOperation] or
    [ValueError]; these are the exceptions the policy catches.  A stream
    object is truthy unless its class says otherwise (a [__bool__] that
    returns [False], a [__len__] that returns 0): [StreamBody] is the truthy
    stream, [FalsyStreamBody] the stream that tests false. *)
Inductive Body : Type :=
| NoBody
| BytesBody (data : string)
| StreamBody (tell : option Z) (seek : Z -> bool)
| FalsyStreamBody (tell : option Z) (seek : Z -> bool).

(** [hasattr(body, "read")]. *)
Definition has_read (b : Body) : bool :=
  match b with
  | StreamBody _ _ | FalsyStreamBody _ _ => true
  | NoBody | BytesBody _ => false
  end.

(** Python truthiness of the body: [None] and the empty buffer are falsy;
    a stream is as its class has it. *)
Definition body_truthy (b : Body) : bool :=
  match b with
  | NoBody => false
  | BytesBody data => negb (String.eqb data EmptyString)
  | StreamBody _ _ => true
  | FalsyStreamBody _ _ => false
  end.

Record HttpRequest : Type := mkHttpRequest {
  method : string;
  url : Url;
  body : Body
}.

Record HttpResponse : Set := mkHttpResponse {
  status_code : Z;
  payload : string;
  location_mode : option LocationMode
}.

(** [RequestHistory(request, http_response=..., error=...)].  An entry holds
    the request and the response as they are when it is recorded. *)
Record RequestHistory : Type := mkRequestHistory {
  history_request : HttpRequest;
  history_response : option HttpResponse;
  history_error : option AzureError
}.

(** A pipeline response: the HTTP response and the ["history"] entry of its
    context. *)
Record PipelineResponse : Type := mkPipelineResponse {
  http_response : HttpResponse;
  context_history : option (list RequestHistory)
}.

(** The [hosts] dictionary: location mode to hostname, a hostname possibly
    [None]. *)
Abbreviation Hosts := (gmap LocationMode (option string)).

(** The settings dictionary built by [configure_retries]. *)
Record Settings : Type := mkSettings {
  total : Z;
  connect : Z;
  read : Z;
  status : Z;
  retry_secondary : bool;
  mode : LocationMode;
  hosts : option Hosts;
  hook : bool;
  body_position : option Z;
  count : Z;
  history : list RequestHistory
}.

Definition set_total (v : Z) (s : Settings) : Settings :=
  mkSettings v (connect s) (read s) (status s) (retry_secondary s) (mode s)
             (hosts s) (hook s) (body_position s) (count s) (history s).
Definition set_connect (v : Z) (s : Settings) : Settings :=
  mkSettings (total s) v (read s) (status s) (retry_secondary s) (mode s)
             (hosts s) (hook s) (body_position s) (count s) (history s).
Definition set_read (v : Z) (s : Settings) : Settings :=
  mkSettings (total s) (connect s) v (status s) (retry_secondary s) (mode s)
             (hosts s) (hook s) (body_position s) (count s) (history s).
Definition set_status (v : Z) (s : Settings) : Settings :=
  mkSettings (total s) (connect s) (read s) v (retry_secondary s) (mode s)
             (hosts s) (hook s) (body_position s) (count s) (history s).
Definition set_mode (v : LocationMode) (s : Settings) : Settings :=
  mkSettings (total s) (connect s) (read s) (status s) (retry_secondary s) v
             (hosts s) (hook s) (body_position s) (count s) (history s).
Definition set_count (v : Z) (s : Settings) : Settings :=
  mkSettings (total s) (connect s) (read s) (status s) (retry_secondary s)
             (mode s) (hosts s) (hook s) (body_position s) v (history s).
Definition history_append (h : RequestHistory) (s : Settings) : Settings :=
  mkSettings (total s) (connect s) (read s) (status s) (retry_secondary s)
             (mode s) (hosts s) (hook s) (body_position s) (count s)
             (history s ++ [h]).

(** ** [is_exhausted] *)

(** [filter(None, retry_counts)] drops the falsy counts, that is, the zeros. *)
Definition truthy_counts (counts : list Z) : list Z :=
  List.filter (fun c => negb (c =? 0)) counts.

(** [min] of a non-empty list. *)
Definition list_min (c : Z) (cs : list Z) : Z := fold_right Z.min c cs.

Definition is_exhausted (settings : Settings) : bool :=
  let retry_counts :=
    [total settings; connect settings; read settings; status settings] in
  match truthy_counts retry_counts with
  | [] => false
  | c :: cs => list_min c cs <? 0
  end.

(** ** [is_retry] *)

Definition is_retry (response : PipelineResponse) (mode : LocationMode) : bool :=
  let status := status_code (http_response response) in
  if (300 <=? status) && (status <? 500) then
    if (status =? 404) && bool_decide (mode = SECONDARY) then true
    else if status =? 408 then true
    else false
  else if status >=? 500 then
    if existsb (Z.eqb status) [501; 505] then false else true
  else false.

(** ** The policy object *)

Inductive RetryClass : Set := TablesRetryPolicy | ExponentialRetry | LinearRetry.

(** The attributes of a policy instance that the methods below read.
    [backoff] is the attribute of [LinearRetry]. *)
Record Policy : Set := mkPolicy {
  retry_class : RetryClass;
  initial_backoff : Z;
  increment_base : Z;
  backoff : Z;
  random_jitter_range : Z;
  total_retries : Z;
  connect_retries : Z;
  read_retries : Z;
  status_retries : Z;
  retry_to_secondary : bool
}.

(** The keyword arguments [retry_connect], [retry_read] and [retry_status]
    that [TablesRetryPolicy.__init__] pops with default 3. *)
Record Kwargs : Set := mkKwargs {
  kw_retry_connect : option Z;
  kw_retry_read : option Z;
  kw_retry_status : option Z
}.

(** The initialiser of the [azure.core] base class, [RetryPolicy.__init__],
    which belongs to another package: it assigns the four budgets from the
    keyword arguments [retry_total], [retry_connect], [retry_read] and
    [retry_status], 10, 3, 3 and 3 when they are absent.  It also sets
    attributes of the base class that nothing in this module reads. *)
Definition RetryPolicy_init (self : Policy)
    (retry_total retry_connect retry_read retry_status : option Z) : Policy :=
  {| retry_class := retry_class self;
     initial_backoff := initial_backoff self;
     increment_base := increment_base self;
     backoff := backoff self;
     random_jitter_range := random_jitter_range self;
     total_retries := default 10 retry_total;
     connect_retries := default 3 retry_connect;
     read_retries := default 3 retry_read;
     status_retries := default 3 retry_status;
     retry_to_secondary := retry_to_secondary self |}.

(** [TablesRetryPolicy.__init__], acting on the attributes [self] has so
    far.  [retry_total] is a named parameter and the other three budgets are
    popped from [kwargs], so none of the four keywords is left in the
    [kwargs] handed to the base initialiser, which is called last and
    assigns the budgets again. *)
Definition TablesRetryPolicy_init (self : Policy)
    (initial_backoff increment_base retry_total : Z)
    (retry_to_secondary : bool) (random_jitter_range : Z) (kwargs : Kwargs)
  : Policy :=
  let self :=
    {| retry_class := retry_class self;
       initial_backoff := initial_backoff;
       increment_base := increment_base;
       backoff := backoff self;
       random_jitter_range := random_jitter_range;
       total_retries := retry_total;
       connect_retries := default 3 (kw_retry_connect kwargs);
       read_retries := default 3 (kw_retry_read kwargs);
       status_retries := default 3 (kw_retry_status kwargs);
       retry_to_secondary := retry_to_secondary |} in
  RetryPolicy_init self None None None None.

(** [ExponentialRetry.__init__]: the three attributes are assigned, then the
    base initialiser runs with [retry_total], [retry_to_secondary] and the
    remaining keyword arguments only, so that its own defaults (15, 3, 3)
    are used for the other three parameters. *)
Definition ExponentialRetry_init
    (initial_backoff increment_base retry_total : Z)
    (retry_to_secondary : bool) (random_jitter_range : Z) (kwargs : Kwargs)
  : Policy :=
  let self :=
    {| retry_class := ExponentialRetry;
       initial_backoff := initial_backoff;
       increment_base := increment_base;
       backoff := 0;
       random_jitter_range := random_jitter_range;
       total_retries := 0; connect_retries := 0; read_retries := 0;
       status_retries := 0; retry_to_secondary := false |} in
  TablesRetryPolicy_init self 15 3 retry_total retry_to_secondary 3 kwargs.

(** [LinearRetry.__init__]. *)
Definition LinearRetry_init (backoff retry_total : Z)
    (retry_to_secondary : bool) (random_jitter_range : Z) (kwargs : Kwargs)
  : Policy :=
  let self :=
    {| retry_class := LinearRetry;
       initial_backoff := 0; increment_base := 0;
       backoff := backoff;
       random_jitter_range := random_jitter_range;
       total_retries := 0; connect_retries := 0; read_retries := 0;
       status_retries := 0; retry_to_secondary := false |} in
  TablesRetryPolicy_init self 15 3 retry_total retry_to_secondary 3 kwargs.

(** ** [get_backoff_time] *)

(** [random.Random().uniform(a, b)] is [a + (b - a) * random()]; the variate
    [u] stands for the value [random()] returns, a number in [0, 1).  Times
    are rationals here. *)
Definition uniform (a b : Z) (u : Q) : Q :=
  (inject_Z a + (inject_Z b - inject_Z a) * u)%Q.

(** The value bound to [backoff] in the exponential policies.  [count] starts
    at 0 and only grows, so [pow] is always taken at a non-negative
    exponent. *)
Definition exponential_backoff (self : Policy) (settings : Settings) : Z :=
  initial_backoff self
  + (if count settings =? 0 then 0
     else Z.pow (increment_base self) (count settings)).

Definition random_range_start (backoff jitter : Z) : Z :=
  if backoff >? jitter then backoff - jitter else 0.

Definition random_range_end (backoff jitter : Z) : Z := backoff + jitter.

Definition TablesRetryPolicy_get_backoff_time
    (self : Policy) (settings : Settings) (u : Q) : Q :=
  let backoff := exponential_backoff self settings in
  uniform (random_range_start backoff (random_jitter_range self))
          (random_range_end backoff (random_jitter_range self)) u.

Definition ExponentialRetry_get_backoff_time
    (self : Policy) (settings : Settings) (u : Q) : Q :=
  let backoff := exponential_backoff self settings in
  uniform (random_range_start backoff (random_jitter_range self))
          (random_range_end backoff (random_jitter_range self)) u.

Definition LinearRetry_get_backoff_time
    (self : Policy) (settings : Settings) (u : Q) : Q :=
  uniform (random_range_start (backoff self) (random_jitter_range self))
          (random_range_end (backoff self) (random_jitter_range self)) u.

(** Method dispatch on the class of [self]. *)
Definition get_backoff_time (self : Policy) (settings : Settings) (u : Q) : Q :=
  match retry_class self with
  | TablesRetryPolicy => TablesRetryPolicy_get_backoff_time self settings u
  | ExponentialRetry => ExponentialRetry_get_backoff_time self settings u
  | LinearRetry => LinearRetry_get_backoff_time self settings u
  end.

(** [sleep]: the duration handed to [transport.sleep], or [None] when the
    method returns without sleeping. *)
Definition sleep (self : Policy) (settings : Settings) (u : Q) : option Q :=
  let backoff := get_backoff_time self settings u in
  if Qeq_bool backoff 0 || negb (Qle_bool 0 backoff) then None
  else Some backoff.

(** ** [_set_next_host_location] *)

(** Truthiness of a hostname: neither [None] nor the empty string. *)
Definition host_truthy (h : option string) : bool :=
  match h with
  | Some name => negb (String.eqb name EmptyString)
  | None => false
  end.

(** [settings["hosts"] and all(settings["hosts"].values())]. *)
Definition hosts_usable (h : option Hosts) : bool :=
  match h with
  | None => false
  | Some m =>
      negb (bool_decide (m = ∅))
      && forallb host_truthy (snd <$> map_to_list m)
  end.

Definition alternate (m : LocationMode) : LocationMode :=
  match m with PRIMARY => SECONDARY | SECONDARY => PRIMARY end.

(** [settings["hosts"].get(mode)] as the network location that [geturl]
    writes: a missing entry or [None] is rendered as the empty string. *)
Definition host_of (h : option Hosts) (m : LocationMode) : string :=
  match h with
  | Some hs =>
      match hs !! m with Some (Some name) => name | _ => EmptyString end
  | None => EmptyString
  end.

(** [request.url] is parsed, the network location of the parse replaced,
    and what [geturl()] writes stored back.  The request of the model
    carries the six components handed to [geturl()]: they are what a later
    parse of the stored text gives as long as the hostname is a plain
    network location, without ['/'], ['?'] or ['#']. *)
Definition _set_next_host_location (settings : Settings) (request : HttpRequest)
  : Settings * HttpRequest :=
  if hosts_usable (hosts settings) then
    let settings :=
      if bool_decide (mode settings = PRIMARY)
      then set_mode SECONDARY settings
      else set_mode PRIMARY settings in
    let updated :=
      replace_netloc (url request) (host_of (hosts settings) (mode settings)) in
    (settings, mkHttpRequest (method request) updated (body request))
  else (settings, request).

(** ** [configure_retries] *)

(** The per-request options the policy pops from [request.context.options]. *)
Record Options : Type := mkOptions {
  opt_retry_total : option Z;
  opt_retry_connect : option Z;
  opt_retry_read : option Z;
  opt_retry_status : option Z;
  opt_retry_to_secondary : option bool;
  opt_location_mode : option LocationMode;
  opt_hosts : option Hosts;
  opt_retry_hook : bool
}.

Record PipelineRequest : Type := mkPipelineRequest {
  http_request : HttpRequest;
  options : Options
}.

Definition configure_retries (self : Policy) (request : PipelineRequest)
  : Settings :=
  let body_position :=
    match body (http_request request) with
    | StreamBody tell _ | FalsyStreamBody tell _ => tell
    | NoBody | BytesBody _ => None
    end in
  let options := options request in
  {| total := default (total_retries self) (opt_retry_total options);
     connect := default (connect_retries self) (opt_retry_connect options);
     read := default (read_retries self) (opt_retry_read options);
     status := default (status_retries self) (opt_retry_status options);
     retry_secondary :=
       default (retry_to_secondary self) (opt_retry_to_secondary options);
     mode := default PRIMARY (opt_location_mode options);
     hosts := opt_hosts options;
     hook := opt_retry_hook options;
     body_position := body_position;
     count := 0;
     history := [] |}.

(** ** [increment] *)

(** The settings and the request are mutated in place, also on the paths
    that return [False]; the result carries both as they are afterwards. *)
Definition increment (settings : Settings) (request : HttpRequest)
    (response : option HttpResponse) (error : option AzureError)
  : Settings * HttpRequest * bool :=
  let settings := set_total (total settings - 1) settings in
  let settings :=
    match error, response with
    | Some (ServiceRequestError _), _ =>
        history_append (mkRequestHistory request None error)
          (set_connect (connect settings - 1) settings)
    | Some (ServiceResponseError _), _ =>
        history_append (mkRequestHistory request None error)
          (set_read (read settings - 1) settings)
    | _, Some _ =>
        history_append (mkRequestHistory request response None)
          (set_status (status settings - 1) settings)
    | _, None => settings
    end in
  if negb (is_exhausted settings) then
    let '(settings, request) :=
      if negb (String.eqb (method request) "PUT") && retry_secondary settings
      then _set_next_host_location settings request
      else (settings, request) in
    if body_truthy (body request) && has_read (body request) then
      match body_position settings, body request with
      | Some position, (StreamBody _ seek | FalsyStreamBody _ seek) =>
          if seek position
          then (set_count (count settings + 1) settings, request, true)
          else (settings, request, false)
      | _, _ => (settings, request, false)
      end
    else (set_count (count settings + 1) settings, request, true)
  else (settings, request, false).

(** ** [send] *)

(** What [self.next.send(request)] does: it returns a pipeline response or
    raises an [AzureError].  Exceptions of other classes are not handled by
    the policy and are outside this model. *)
Inductive Outcome : Type :=
| Responded (response : PipelineResponse)
| Failed (err : AzureError).

(** What the caller of [send] observes. [Unfinished] marks a loop cut short
    by the iteration bound of the model; [send_total] shows it never is. *)
Inductive SendResult : Type :=
| Returned (response : PipelineResponse)
| Raised (err : AzureError)
| Unfinished.

(** The effects of a retry: the arguments [retry_count] and [location_mode]
    passed to the hook, when one is set, and the duration slept, if any. *)
Record Retry : Type := mkRetry {
  hook_call : option (Z * LocationMode);
  slept : option Q
}.

(** One pass through the loop: the request handed to the next stage, the
    settings in force then, what came back, and the retry that followed. *)
Record Attempt : Type := mkAttempt {
  sent_request : HttpRequest;
  sent_settings : Settings;
  sent_outcome : Outcome;
  sent_retry : option Retry
}.

Record Run : Type := mkRun {
  result : SendResult;
  attempts : list Attempt;
  final_settings : Settings;
  final_request : HttpRequest
}.

(** [retry_hook(settings, ...)]. *)
Definition retry_hook (settings : Settings) : option (Z * LocationMode) :=
  if hook settings then Some (count settings - 1, mode settings) else None.

(** A history entry keeps the response object itself, not a copy of it.
    When the loop ends on a response that [increment] has just recorded, the
    last entry of the history therefore holds the very object whose
    [location_mode] the last statements of [send] assign, and shows the
    assignment.  [annotate_last m h] is the history [h] as it reads once
    the response in its last entry has been given the location mode [m]. *)
Definition annotate_entry (m : LocationMode) (e : RequestHistory)
  : RequestHistory :=
  {| history_request := history_request e;
     history_response :=
       match history_response e with
       | Some r => Some {| status_code := status_code r;
                           payload := payload r;
                           location_mode := Some m |}
       | None => None
       end;
     history_error := history_error e |}.

Fixpoint annotate_last (m : LocationMode) (h : list RequestHistory)
  : list RequestHistory :=
  match h with
  | [] => []
  | e :: rest =>
      match rest with
      | [] => [annotate_entry m e]
      | _ :: _ => e :: annotate_last m rest
      end
  end.

(** The settings once the response recorded last has been annotated. *)
Definition annotate_recorded (s : Settings) : Settings :=
  mkSettings (total s) (connect s) (read s) (status s) (retry_secondary s)
             (mode s) (hosts s) (hook s) (body_position s) (count s)
             (annotate_last (mode s) (history s)).

(** The last three statements of [send], for the response object they are
    applied to. *)
Definition annotate (retry_settings : Settings) (response : PipelineResponse)
  : PipelineResponse :=
  {| http_response :=
       {| status_code := status_code (http_response response);
          payload := payload (http_response response);
          location_mode := Some (mode retry_settings) |};
     context_history :=
       match history retry_settings with
       | [] => context_history response
       | _ :: _ => Some (history retry_settings)
       end |}.

Definition and_then (a : Attempt) (rest : Run) : Run :=
  mkRun (result rest) (a :: attempts rest)
        (final_settings rest) (final_request rest).

Section Send.

(** The policy, the rest of the pipeline and the random generator: [next i
    request] is the outcome of the [i]-th call of [self.next.send] (counted
    from 0) on the request as it stands then, [rand i] the variate drawn
    for the sleep that follows it. *)
Context (self : Policy).
Context (next : nat -> HttpRequest -> Outcome).
Context (rand : nat -> Q).

(** The [while retries_remaining] loop, from its [i]-th iteration on, with
    the statements that follow it.  Each call of the next stage gives a
    response object of its own; the response returned is in the history
    exactly when the loop ends because [increment] returned [False] on it,
    and then it is the entry recorded last. *)
Fixpoint send_loop (fuel : nat) (i : nat)
    (retry_settings : Settings) (request : HttpRequest) : Run :=
  match fuel with
  | O => mkRun Unfinished [] retry_settings request
  | S fuel =>
      match next i request with
      | Responded response =>
          if is_retry response (mode retry_settings) then
            let '(settings', request', retries_remaining) :=
              increment retry_settings request
                        (Some (http_response response)) None in
            if retries_remaining then
              and_then
                (mkAttempt request retry_settings (Responded response)
                   (Some (mkRetry (retry_hook settings')
                                  (sleep self settings' (rand i)))))
                (send_loop fuel (S i) settings' request')
            else
              let settings' := annotate_recorded settings' in
              mkRun (Returned (annotate settings' response))
                    [mkAttempt request retry_settings
                               (Responded response) None]
                    settings' request'
          else
            mkRun (Returned (annotate retry_settings response))
                  [mkAttempt request retry_settings
                             (Responded response) None]
                  retry_settings request
      | Failed err =>
          let '(settings', request', retries_remaining) :=
            increment retry_settings request None (Some err) in
          if retries_remaining then
            and_then
              (mkAttempt request retry_settings (Failed err)
                 (Some (mkRetry (retry_hook settings')
                                (sleep self settings' (rand i)))))
              (send_loop fuel (S i) settings' request')
          else
            mkRun (Raised err)
                  [mkAttempt request retry_settings (Failed err) None]
                  settings' request'
      end
  end.

(** Every retry takes one unit from [total], and a negative [total] stops
    the loop, so [total + 1] iterations are enough (one when [total] is
    negative from the start). *)
Definition send (request : PipelineRequest) : Run :=
  let retry_settings := configure_retries self request in
  send_loop (S (Z.to_nat (total retry_settings))) 0
            retry_settings (http_request request).

End Send.

(** ** [StorageHosts] *)

(** Exceptions other than [AzureError] that the policies of this module
    raise or let through. *)
Inductive PyError : Set :=
| ValueError
| KeyError (key : string)
| AttributeError
| IndexError.

(** The [hosts] dictionary of a [StorageHosts] policy, in the order in which
    [items()] yields it; the keys of a dictionary are distinct. *)
Abbreviation HostItems := (list (LocationMode * option string)).

(** The same dictionary as a finite map, for lookups. *)
Definition as_hosts (items : HostItems) : Hosts := list_to_map items.

(** The [for key, value in self.hosts.items()] loop of [on_request]: the
    location mode is that of the last entry whose hostname is the network
    location of the URL, and [PRIMARY] when there is none. *)
Definition detect_location (location : string) (items : HostItems)
  : LocationMode :=
  fold_left
    (fun location_mode entry =>
       if bool_decide (snd entry = Some location) then fst entry
       else location_mode)
    items PRIMARY.

Definition set_opt_hosts (v : option Hosts) (o : Options) : Options :=
  mkOptions (opt_retry_total o) (opt_retry_connect o) (opt_retry_read o)
            (opt_retry_status o) (opt_retry_to_secondary o)
            (opt_location_mode o) v (opt_retry_hook o).
Definition set_opt_retry_to_secondary (v : option bool) (o : Options)
  : Options :=
  mkOptions (opt_retry_total o) (opt_retry_connect o) (opt_retry_read o)
            (opt_retry_status o) v
            (opt_location_mode o) (opt_hosts o) (opt_retry_hook o).
Definition set_opt_location_mode (v : option LocationMode) (o : Options)
  : Options :=
  mkOptions (opt_retry_total o) (opt_retry_connect o) (opt_retry_read o)
            (opt_retry_status o) (opt_retry_to_secondary o)
            v (opt_hosts o) (opt_retry_hook o).

(** [StorageHosts.on_request].  [self_hosts] is the attribute [self.hosts]
    ([None] is the default of the constructor) and [use_location] the value
    popped from the options.  The result is the exception raised, if any,
    and the request with its options as the method leaves them, which also
    on the raising paths have been written to. *)
Definition StorageHosts_on_request (self_hosts : option HostItems)
    (use_location : option LocationMode) (request : PipelineRequest)
  : option PyError * PipelineRequest :=
  let options := set_opt_hosts (as_hosts <$> self_hosts) (options request) in
  let parsed_url := url (http_request request) in
  match self_hosts with
  | None =>
      (Some AttributeError, mkPipelineRequest (http_request request) options)
  | Some items =>
      let location_mode := detect_location (netloc parsed_url) items in
      match use_location with
      | Some use_location =>
          let options := set_opt_retry_to_secondary (Some false) options in
          if negb (bool_decide (is_Some (as_hosts items !! use_location))) then
            (Some ValueError, mkPipelineRequest (http_request request) options)
          else if negb (bool_decide (use_location = location_mode)) then
            let updated :=
              replace_netloc parsed_url
                (host_of (Some (as_hosts items)) use_location) in
            (None,
             mkPipelineRequest
               (mkHttpRequest (method (http_request request)) updated
                              (body (http_request request)))
               (set_opt_location_mode (Some use_location) options))
          else
            (None,
             mkPipelineRequest (http_request request)
               (set_opt_location_mode (Some location_mode) options))
      | None =>
          (None,
           mkPipelineRequest (http_request request)
             (set_opt_location_mode (Some location_mode) options))
      end
  end.

(** ** [StorageHeadersPolicy] *)

(** The headers of a request or of a response, looked up by the names the
    source writes. *)
Abbreviation Headers := (gmap string string).

(** [custom_id or str(uuid.uuid1())]. *)
Definition request_id_or (custom_id : option string) (fresh : string) : string :=
  match custom_id with
  | Some id => if String.eqb id EmptyString then fresh else id
  | None => fresh
  end.

(** [StorageHeadersPolicy.on_request] on the headers of the request.
    [inherited] is what [HeadersPolicy.on_request] of [azure.core], called
    first, does to them; [current_time] is [format_date_time(time())],
    [fresh] is [str(uuid.uuid1())], and [client_request_id] the value popped
    from the options. *)
Definition StorageHeadersPolicy_on_request (inherited : Headers -> Headers)
    (current_time fresh : string) (client_request_id : option string)
    (headers : Headers) : Headers :=
  let headers := inherited headers in
  let headers := <["x-ms-date"%string := current_time]> headers in
  let headers := <["Date"%string := current_time]> headers in
  let custom_id := client_request_id in
  <["x-ms-client-request-id"%string := request_id_or custom_id fresh]> headers.

(** What [StorageHeadersPolicy.on_response] does: it returns, raises the
    [AzureError] whose message is formatted from the echoed id, the id sent
    and the service request id, or fails with [KeyError] while formatting. *)
Inductive EchoCheck : Set :=
| EchoAccepted
| EchoMismatch (echoed : string) (sent : option string) (service_id : string)
| EchoKeyError (key : string).

Definition StorageHeadersPolicy_on_response
    (request_headers response_headers : Headers) : EchoCheck :=
  match response_headers !! "x-ms-client-request-id"%string with
  | Some echoed =>
      let client_request_id :=
        request_headers !! "x-ms-client-request-id"%string in
      if negb (bool_decide (Some echoed = client_request_id)) then
        match response_headers !! "x-ms-request-id"%string with
        | Some service_id => EchoMismatch echoed client_request_id service_id
        | None => EchoKeyError "x-ms-request-id"
        end
      else EchoAccepted
  | None => EchoAccepted
  end.

(** ** [StorageContentValidation] *)

(** A file-like object over a finite sequence of bytes: [read] hands out the
    bytes from [position] on, [tell] raises when [tell_raises] is set, and
    [seek] raises [AttributeError] or [IOError] when [seek_raises] is set. *)
Record FileLike : Set := mkFileLike {
  contents : list Byte.byte;
  position : nat;
  tell_raises : bool;
  seek_raises : bool
}.

Definition at_position (p : nat) (f : FileLike) : FileLike :=
  mkFileLike (contents f) p (tell_raises f) (seek_raises f).

(** [data.read(n)]: the chunk read and the object afterwards. *)
Definition read_chunk (n : nat) (f : FileLike) : list Byte.byte * FileLike :=
  let chunk := take n (drop (position f) (contents f)) in
  (chunk, at_position (position f + length chunk) f).

(** [for chunk in iter(lambda: data.read(4096), b""): md5.update(chunk)]:
    the bytes fed to the hash after those in [hashed], and the object
    afterwards. *)
Fixpoint update_chunks (fuel : nat) (f : FileLike) (hashed : list Byte.byte)
  : list Byte.byte * FileLike :=
  match fuel with
  | O => (hashed, f)
  | S fuel =>
      match read_chunk 4096 f with
      | ([], f') => (hashed, f')
      | (chunk, f') => update_chunks fuel f' (hashed ++ chunk)
      end
  end.

(** The argument of [get_content_md5]: bytes, an object with a [read]
    attribute, or anything else. *)
Inductive Data : Set :=
| Bytes (content : list Byte.byte)
| FileObject (f : FileLike)
| OtherData.

(** [StorageContentValidation.get_content_md5]; [md5] is the digest of
    [hashlib.md5] as a function of all the bytes fed to it.  Every read but
    the last takes at least one byte, so one more round than there are bytes
    is enough for the loop.  The result comes with the data as the call
    leaves it. *)
Definition get_content_md5 (md5 : list Byte.byte -> list Byte.byte)
    (data : Data) : (PyError + list Byte.byte) * Data :=
  match data with
  | Bytes content => (inr (md5 content), data)
  | FileObject f =>
      let pos := if tell_raises f then 0%nat else position f in
      let '(hashed, f) := update_chunks (S (length (contents f))) f [] in
      if seek_raises f then (inl ValueError, FileObject f)
      else (inr (md5 hashed), FileObject (at_position pos f))
  | OtherData => (inl ValueError, data)
  end.

(** The entries of the pipeline context that the policy writes and reads. *)
Record ValidationContext : Set := mkValidationContext {
  validate_content : option bool;
  validate_content_md5 : option string
}.

(** What [on_request] leaves behind: the exception raised, if any, the
    headers of the request, the context, and the data. *)
Record Validated : Set := mkValidated {
  validation_error : option PyError;
  validated_headers : Headers;
  validated_context : ValidationContext;
  validated_data : Data
}.

(** [StorageContentValidation.on_request]; [b64] is [encode_base64] on
    bytes, and [validate_option] the value of the option
    ["validate_content"], if given. *)
Definition StorageContentValidation_on_request
    (md5 : list Byte.byte -> list Byte.byte) (b64 : list Byte.byte -> string)
    (validate_option : option bool) (verb : string) (data : Data)
    (headers : Headers) (context : ValidationContext) : Validated :=
  let validate := default false validate_option in
  if validate && negb (String.eqb verb "GET") then
    match get_content_md5 md5 data with
    | (inl err, data) => mkValidated (Some err) headers context data
    | (inr digest, data) =>
        let computed_md5 := b64 digest in
        mkValidated None
          (<["Content-MD5"%string := computed_md5]> headers)
          (mkValidationContext (Some validate) (Some computed_md5))
          data
    end
  else
    mkValidated None headers
      (mkValidationContext (Some validate) (validate_content_md5 context))
      data.

(** Truthiness of a string that may be missing. *)
Definition text_truthy (s : option string) : bool :=
  match s with
  | Some text => negb (String.eqb text EmptyString)
  | None => false
  end.

(** [StorageContentValidation.on_response]: [None] when it returns, or the
    pair of the header received and the value computed that goes into the
    message of the [AzureError] it raises.  [body] is
    [response.http_response.body()]. *)
Definition StorageContentValidation_on_response
    (md5 : list Byte.byte -> list Byte.byte) (b64 : list Byte.byte -> string)
    (context : ValidationContext) (response_headers : Headers)
    (body : list Byte.byte) : option (string * string) :=
  if default false (validate_content context)
     && text_truthy (response_headers !! "content-md5"%string) then
    let computed_md5 :=
      if text_truthy (validate_content_md5 context)
      then default EmptyString (validate_content_md5 context)
      else match get_content_md5 md5 (Bytes body) with
           | (inr digest, _) => b64 digest
           | (inl _, _) => EmptyString
           end in
    let received := default EmptyString (response_headers !! "content-md5"%string) in
    if negb (String.eqb received computed_md5)
    then Some (received, computed_md5) else None
  else None.

(** ** [StorageResponseHook] *)

(** The three counters that the hook keeps in the pipeline context and
    accepts as options; a counter is an integer or [None]. *)
Record Progress : Set := mkProgress {
  data_stream_total : option Z;
  download_stream_current : option Z;
  upload_stream_current : option Z
}.

(** [a or b] for values that are integers or [None]: 0 is falsy. *)
Definition int_or (a b : option Z) : option Z :=
  match a with
  | Some z => if z =? 0 then b else a
  | None => b
  end.

(** [a or b] for values that are callables (named by a number) or [None]. *)
Definition callback_or (a b : option nat) : option nat :=
  match a with
  | Some _ => a
  | None => b
  end.

(** [text.split(sep, 1)[1]]: what follows the first separator; [None]
    stands for the [IndexError] raised when there is no separator. *)
Fixpoint after_first (sep : Ascii.ascii) (text : string) : option string :=
  match text with
  | EmptyString => None
  | String c rest =>
      if Ascii.eqb c sep then Some rest else after_first sep rest
  end.

(** [int(headers.get("Content-Length", 0))]; [int_of] is [int] on strings,
    [None] standing for the [ValueError] it raises. *)
Definition content_length (int_of : string -> option Z) (headers : Headers)
  : PyError + Z :=
  match headers !! "Content-Length"%string with
  | Some text =>
      match int_of text with
      | Some n => inr n
      | None => inl ValueError
      end
  | None => inr 0
  end.

(** [int(content_range.split(" ", 1)[1].split("/", 1)[1])]. *)
Definition range_total (int_of : string -> option Z) (content_range : string)
  : PyError + Z :=
  match after_first (Ascii.ascii_of_nat 32) content_range with
  | None => inl IndexError
  | Some range =>
      match after_first (Ascii.ascii_of_nat 47) range with
      | None => inl IndexError
      | Some total_text =>
          match int_of total_text with
          | Some n => inr n
          | None => inl ValueError
          end
      end
  end.

(** [StorageResponseHook.send], from the point where the next stage has
    returned [response] (an exception of the next stage passes through).
    [context] and [context_callback] are the entries of the request context,
    [given] and [given_hook] the options ([given_hook] is [None] when the
    option [raw_response_hook] is absent), [self_callback] the attribute of
    the policy, [mode_option] the option ["mode"], [response_headers] and
    [request_headers] the headers of [response.http_response] and of
    [response.http_request].  The result is the exception raised, or the
    counters written to both contexts with the callback that is called and
    kept, if any. *)
Definition StorageResponseHook_send (int_of : string -> option Z)
    (self_callback : option nat)
    (context : Progress) (context_callback : option nat)
    (given : Progress) (given_hook : option (option nat))
    (mode_option : option LocationMode)
    (response : PipelineResponse) (response_headers request_headers : Headers)
  : PyError + (Progress * option nat) :=
  let data_stream_total :=
    int_or (data_stream_total context) (data_stream_total given) in
  let download_stream_current :=
    int_or (download_stream_current context) (download_stream_current given) in
  let upload_stream_current :=
    int_or (upload_stream_current context) (upload_stream_current given) in
  let response_callback :=
    callback_or context_callback (default self_callback given_hook) in
  let will_retry :=
    match mode_option with
    | Some mode => is_retry response mode
    | None => is_retry response PRIMARY
    end in
  let finish (total download upload : option Z) :=
    inr (mkProgress total download upload, response_callback) in
  match download_stream_current, upload_stream_current with
  | Some current, _ =>
      if negb will_retry then
        match content_length int_of response_headers with
        | inl err => inl err
        | inr length =>
            let current := current + length in
            match data_stream_total with
            | Some _ => finish data_stream_total (Some current)
                               upload_stream_current
            | None =>
                if text_truthy (response_headers !! "Content-Range"%string) then
                  match range_total int_of
                          (default EmptyString
                             (response_headers !! "Content-Range"%string)) with
                  | inl err => inl err
                  | inr total => finish (Some total) (Some current)
                                        upload_stream_current
                  end
                else finish (Some current) (Some current) upload_stream_current
            end
        end
      else finish data_stream_total download_stream_current
                  upload_stream_current
  | None, Some current =>
      if negb will_retry then
        match content_length int_of request_headers with
        | inl err => inl err
        | inr length =>
            finish data_stream_total download_stream_current
                   (Some (current + length))
        end
      else finish data_stream_total download_stream_current
                  upload_stream_current
  | None, None =>
      finish data_stream_total download_stream_current upload_stream_current
  end.

(** * Vocabulary of the statements *)

(** ** Parts of [increment] *)

(** The settings after the first half of [increment]: the budgets charged
    and the history extended. *)
Definition charge (settings : Settings) (request : HttpRequest)
    (response : option HttpResponse) (error : option AzureError) : Settings :=
  let settings := set_total (total settings - 1) settings in
  match error, response with
  | Some (ServiceRequestError _), _ =>
      history_append (mkRequestHistory request None error)
        (set_connect (connect settings - 1) settings)
  | Some (ServiceResponseError _), _ =>
      history_append (mkRequestHistory request None error)
        (set_read (read settings - 1) settings)
  | _, Some _ =>
      history_append (mkRequestHistory request response None)
        (set_status (status settings - 1) settings)
  | _, None => settings
  end.

(** Whether [increment] goes on to [_set_next_host_location] and the latter
    changes anything. *)
Definition fails_over (settings : Settings) (request : HttpRequest) : bool :=
  negb (String.eqb (method request) "PUT")
  && retry_secondary settings && hosts_usable (hosts settings).

(** Whether the body can be replayed: it is not a stream that [increment]
    rewinds, or it is one whose position was captured and that seeks back
    to it. *)
Definition rewinds (position : option Z) (b : Body) : bool :=
  match b with
  | StreamBody _ seek =>
      match position with Some p => seek p | None => false end
  | _ => true
  end.

Definition relocate (settings : Settings) (request : HttpRequest)
  : Settings * HttpRequest :=
  if fails_over settings request then
    (set_mode (alternate (mode settings)) settings,
     mkHttpRequest (method request)
       (replace_netloc (url request)
          (host_of (hosts settings) (alternate (mode settings))))
       (body request))
  else (settings, request).

(** ** Attempts and runs *)

(** An attempt fails when the next stage raises, or answers with a status
    that [is_retry] accepts in the location mode in force. *)
Definition failing (m : LocationMode) (o : Outcome) : bool :=
  match o with
  | Responded response => is_retry response m
  | Failed _ => true
  end.

(** The [response] and [error] arguments [send] passes to [increment]. *)
Definition as_response (o : Outcome) : option HttpResponse :=
  match o with
  | Responded response => Some (http_response response)
  | Failed _ => None
  end.

Definition as_error (o : Outcome) : option AzureError :=
  match o with
  | Responded _ => None
  | Failed err => Some err
  end.

(** How [send] ends after a last attempt with outcome [o]. *)
Definition conclude (o : Outcome) (settings : Settings) : SendResult :=
  match o with
  | Responded response => Returned (annotate settings response)
  | Failed err => Raised err
  end.

(** The settings as [increment] leaves them after charging attempt [a]. *)
Definition charged_after (a : Attempt) : Settings :=
  charge (sent_settings a) (sent_request a)
         (as_response (sent_outcome a)) (as_error (sent_outcome a)).

(** An attempt that was followed by a retry: it failed, and the charge left
    every budget non-negative. *)
Definition retried (a : Attempt) : Prop :=
  failing (mode (sent_settings a)) (sent_outcome a) = true
  /\ is_Some (sent_retry a)
  /\ is_exhausted (charged_after a) = false.

(** The last attempt decides what the caller sees. *)
Definition surfaced (final : Attempt) (run : Run) : Prop :=
  sent_retry final = None
  /\ result run = conclude (sent_outcome final) (final_settings run).

(** The budget, besides [total], that an outcome is charged to. *)
Definition hits_connect (o : Outcome) : bool :=
  match o with Failed (ServiceRequestError _) => true | _ => false end.

Definition hits_read (o : Outcome) : bool :=
  match o with Failed (ServiceResponseError _) => true | _ => false end.

Definition hits_status (o : Outcome) : bool :=
  match o with Responded _ => true | _ => false end.

(** How many of the attempts were charged to a budget. *)
Definition tally (hits : Outcome -> bool) (l : list Attempt) : Z :=
  Z.of_nat (length (List.filter (fun a => hits (sent_outcome a)) l)).

(** ** Statements that the code does not bear out *)

(** The claim that [N] failures within [total] always give [N + 1] sends:
    the first [N] sends fail, the body can be replayed, and the send after
    them is the last one the claim allows for (it does not fail, or [total]
    is used up). *)
Definition sends_one_more_than_failures (self : Policy)
    (next : nat -> HttpRequest -> Outcome) (rand : nat -> Q)
    (request : PipelineRequest) (N : nat) : Prop :=
  let run := send self next rand request in
  let settings := configure_retries self request in
  Z.of_nat N <= total settings ->
  rewinds (body_position settings) (body (http_request request)) = true ->
  (forall k a, (k < N)%nat -> attempts run !! k = Some a ->
     failing (mode (sent_settings a)) (sent_outcome a) = true) ->
  (forall a, attempts run !! N = Some a ->
     failing (mode (sent_settings a)) (sent_outcome a) = false
     \/ Z.of_nat N = total settings) ->
  length (attempts run) = S N.


(** The claim that the error of the third attempt is the one raised. *)
Definition third_error_raised (run : Run) : Prop :=
  exists third,
    attempts run !! 2%nat = Some third
    /\ result run = conclude (sent_outcome third) (final_settings run)
    /\ total (final_settings run) = 1.

(** An entry of the [hosts] dictionary that names a host. *)
Definition configured (m : Hosts) (location : LocationMode) : bool :=
  match m !! location with
  | Some name => host_truthy name
  | None => false
  end.

(** The methods that only read (the safe methods of HTTP); every other
    method is a mutating one. *)
Definition read_only (verb : string) : bool :=
  existsb (String.eqb verb) ["GET"; "HEAD"; "OPTIONS"; "TRACE"]%string.

(** That a mutating request never fails over, and that failing over takes
    both hosts. *)
Definition no_failover_for_writes : Prop :=
  forall settings request response error,
    read_only (method request) = false ->
    mode (fst (fst (increment settings request response error)))
    = mode settings.

Definition failover_takes_both_hosts : Prop :=
  forall settings request response error m,
    hosts settings = Some m ->
    mode (fst (fst (increment settings request response error)))
    <> mode settings ->
    configured m PRIMARY = true /\ configured m SECONDARY = true.

(** ** Concrete requests and pipelines *)

Definition tables_url : Url :=
  mkUrl "https" "account.table.core.windows.net" "/Tables"
        EmptyString EmptyString EmptyString.

Definition no_options : Options :=
  mkOptions None None None None None None None false.

Definition request_of (verb : string) (b : Body) (opts : Options)
  : PipelineRequest :=
  mkPipelineRequest (mkHttpRequest verb tables_url b) opts.

(** A response of the next stage with the given status. *)
Definition answer (code : Z) : Outcome :=
  Responded (mkPipelineResponse (mkHttpResponse code EmptyString None) None).

(** A next stage that plays a script, whatever the request. *)
Definition scripted (script : list Outcome) (otherwise : Outcome)
  : nat -> HttpRequest -> Outcome :=
  fun i _ => nth i script otherwise.

Definition midpoint : nat -> Q := fun _ => (1 # 2)%Q.

(** [TablesRetryPolicy()] with the defaults of its initialiser. *)
Definition TablesRetryPolicy_default : Policy :=
  TablesRetryPolicy_init (mkPolicy TablesRetryPolicy 0 0 0 0 0 0 0 0 false)
    15 3 10 false 3 (mkKwargs None None None).

(** Four retryable statuses, then success. *)
Definition four_failures : nat -> HttpRequest -> Outcome :=
  scripted [answer 500; answer 500; answer 500; answer 500] (answer 200).

(** A next stage that cannot be reached: the [n]-th send (counted from 1)
    raises the connect-phase error number [n]. *)
Definition unreachable : nat -> HttpRequest -> Outcome :=
  fun i _ => Failed (ServiceRequestError (S i)).

(** The options [retry_total=3, retry_connect=1] of a request. *)
Definition one_connect_retry : Options :=
  mkOptions (Some 3) (Some 1) None None None None None false.

(** Both locations configured, and failover switched on. *)
Definition both_hosts : Hosts :=
  <[PRIMARY := Some "account.table.core.windows.net"%string]>
    (<[SECONDARY := Some "account-secondary.table.core.windows.net"%string]> ∅).

Definition with_failover : Options :=
  mkOptions None None None None (Some true) None (Some both_hosts) false.

(** The settings of a request at its first failure, and a 500 response. *)
Definition first_settings (request : PipelineRequest) : Settings :=
  configure_retries TablesRetryPolicy_default request.

Definition server_error : HttpResponse := mkHttpResponse 500 EmptyString None.


Definition only_primary : Hosts :=
  <[PRIMARY := Some "account.table.core.windows.net"%string]> ∅.

(** ** The trace of a run *)

(** Whether the loop goes round again after attempt [a]: the attempt failed,
    no budget is negative after the charge, and the body can be replayed. *)
Definition continues (a : Attempt) : bool :=
  failing (mode (sent_settings a)) (sent_outcome a)
  && negb (is_exhausted (charged_after a))
  && rewinds (body_position (charged_after a)) (body (sent_request a)).

(** The settings and the request with which the attempt after [a] is made. *)
Definition next_settings (a : Attempt) : Settings :=
  let moved := relocate (charged_after a) (sent_request a) in
  set_count (count (fst moved) + 1) (fst moved).

Definition next_request (a : Attempt) : HttpRequest :=
  snd (relocate (charged_after a) (sent_request a)).

(** The settings and the request as [increment] leaves them when it stops
    the loop after attempt [a]. *)
Definition stopping (a : Attempt) : Settings * HttpRequest :=
  if is_exhausted (charged_after a) then (charged_after a, sent_request a)
  else relocate (charged_after a) (sent_request a).

(** The settings once [send] is over: a response that was recorded shows
    its annotation in the history. *)
Definition recorded (o : Outcome) (settings : Settings) : Settings :=
  match o with
  | Responded _ => annotate_recorded settings
  | Failed _ => settings
  end.

(** The settings and the request as a last attempt [a] leaves them. *)
Definition closing (a : Attempt) : Settings * HttpRequest :=
  if failing (mode (sent_settings a)) (sent_outcome a) then
    (recorded (sent_outcome a) (fst (stopping a)), snd (stopping a))
  else (sent_settings a, sent_request a).

(** [follows self next rand i settings request l final]: the attempts [l] are
    those of the loop started at iteration [i] with [settings] and
    [request], and [final] is the state the loop ends in. *)
Fixpoint follows (self : Policy) (next : nat -> HttpRequest -> Outcome)
    (rand : nat -> Q) (i : nat) (settings : Settings) (request : HttpRequest)
    (l : list Attempt) (final : Settings * HttpRequest) : Prop :=
  match l with
  | [] => False
  | a :: l' =>
      sent_settings a = settings /\ sent_request a = request
      /\ sent_outcome a = next i request
      /\ match l' with
         | [] => continues a = false /\ sent_retry a = None /\ final = closing a
         | _ :: _ =>
             continues a = true
             /\ sent_retry a
                = Some (mkRetry (retry_hook (next_settings a))
                                (sleep self (next_settings a) (rand i)))
             /\ follows self next rand (S i) (next_settings a) (next_request a)
                        l' final
         end
  end.

(** The history entry [increment] appends for an outcome, if any. *)
Definition history_entry (a : Attempt) : list RequestHistory :=
  match sent_outcome a with
  | Responded response =>
      [mkRequestHistory (sent_request a) (Some (http_response response)) None]
  | Failed (OtherAzureError _) => []
  | Failed err => [mkRequestHistory (sent_request a) None (Some err)]
  end.

(** The attempts of a run that failed. *)
Definition failures (l : list Attempt) : list Attempt :=
  List.filter (fun a => failing (mode (sent_settings a)) (sent_outcome a)) l.

(** The [hosts] dictionary of an account with both locations. *)
Definition two_hosts : HostItems :=
  [(PRIMARY, Some "account.table.core.windows.net"%string);
   (SECONDARY, Some "account-secondary.table.core.windows.net"%string)].

(** A stand-in for [int] in the examples: it reads plain decimal texts. *)
Fixpoint decimal_from (acc : Z) (text : string) : option Z :=
  match text with
  | EmptyString => Some acc
  | String c rest =>
      let code := Z.of_nat (Ascii.nat_of_ascii c) in
      if (48 <=? code) && (code <=? 57)
      then decimal_from (10 * acc + (code - 48)) rest
      else None
  end.

Definition decimal (text : string) : option Z :=
  match text with
  | EmptyString => None
  | _ => decimal_from 0 text
  end.

(** A response with status 200 and one with status 503. *)
Definition ok_response : PipelineResponse :=
  mkPipelineResponse (mkHttpResponse 200 EmptyString None) None.

Definition busy_response : PipelineResponse :=
  mkPipelineResponse (mkHttpResponse 503 EmptyString None) None.

(** The headers of the first hundred bytes of two hundred. *)
Definition partial_content : Headers :=
  <["Content-Length"%string := "100"%string]>
    (<["Content-Range"%string := "bytes 0-99/200"%string]> ∅).

(** * Properties *)

(** ** [increment] in parts *)

(** Case analysis on the body of the request and on the outcome of the
    rewind. *)
Ltac by_body_cases request charged :=
  let data := fresh "data" in
  let tell := fresh "tell" in
  let seek := fresh "seek" in
  let p := fresh "p" in
  destruct (body request) as [|data|tell seek|tell seek]; cbn;
  [ reflexivity
  | destruct (negb (String.eqb data EmptyString)); reflexivity
  | destruct (body_position charged) as [p|];
    [destruct (seek p); reflexivity | reflexivity]
  | reflexivity ].

Lemma increment_eq settings request response error :
  increment settings request response error =
  let charged := charge settings request response error in
  if is_exhausted charged then (charged, request, false)
  else
    let moved := relocate charged request in
    if rewinds (body_position charged) (body request)
    then (set_count (count (fst moved) + 1) (fst moved), snd moved, true)
    else (fst moved, snd moved, false).
Proof.
  unfold increment. fold (charge settings request response error).
  set (charged := charge settings request response error).
  cbv zeta. destruct (is_exhausted charged); [reflexivity|]. cbn [negb].
  unfold relocate, fails_over, _set_next_host_location.
  destruct (negb (String.eqb (method request) "PUT")); cbn [andb];
    [destruct (retry_secondary charged); cbn [andb];
     [destruct (hosts_usable (hosts charged))|]|];
    try by_body_cases request charged.
  assert (Hm : (if bool_decide (mode charged = PRIMARY)
                then set_mode SECONDARY charged
                else set_mode PRIMARY charged)
               = set_mode (alternate (mode charged)) charged)
    by (destruct (mode charged); reflexivity).
  rewrite Hm. cbn [fst snd body mode set_mode body_position].
  by_body_cases request charged.
Qed.

(** ** Exhaustion *)

(** Dropping the zeros and taking the minimum amounts to asking whether some
    budget is negative. *)
Lemma is_exhausted_spec settings :
  is_exhausted settings = true <->
  total settings < 0 \/ connect settings < 0
  \/ read settings < 0 \/ status settings < 0.
Proof.
  unfold is_exhausted, truthy_counts, list_min. cbn [List.filter].
  destruct (Z.eqb_spec (total settings) 0), (Z.eqb_spec (connect settings) 0),
    (Z.eqb_spec (read settings) 0), (Z.eqb_spec (status settings) 0);
    cbn [negb fold_right]; rewrite ?Z.ltb_lt; split; try lia; discriminate.
Qed.

Lemma not_exhausted_spec settings :
  is_exhausted settings = false <->
  0 <= total settings /\ 0 <= connect settings
  /\ 0 <= read settings /\ 0 <= status settings.
Proof.
  pose proof (is_exhausted_spec settings) as H.
  destruct (is_exhausted settings); split; intros; try discriminate;
    try reflexivity; intuition lia.
Qed.

(** ** Retryability *)

(** C2: [is_retry] is true exactly for 404 on the secondary location, for 408,
    and for the statuses from 500 on other than 501 and 505; it is false for
    every other status in [300,500), for 501 and 505, and below 300. *)
Theorem is_retry_spec (response : PipelineResponse) (mode : LocationMode) :
  let s := status_code (http_response response) in
  (is_retry response mode = true <->
     (s = 404 /\ mode = SECONDARY) \/ s = 408
     \/ (500 <= s /\ s <> 501 /\ s <> 505))
  /\ (300 <= s < 500 -> ~ (s = 404 /\ mode = SECONDARY) -> s <> 408 ->
      is_retry response mode = false)
  /\ (s = 501 \/ s = 505 -> is_retry response mode = false)
  /\ (s < 300 -> is_retry response mode = false).
Proof.
  cbv zeta. unfold is_retry. cbn [existsb].
  set (s := status_code (http_response response)).
  destruct (Z.leb_spec 300 s), (Z.ltb_spec s 500), (Z.eqb_spec s 404),
    (Z.eqb_spec s 408), (Z.eqb_spec s 501), (Z.eqb_spec s 505),
    (Z.geb_spec s 500), mode;
    cbn; repeat split; intros;
    try reflexivity; try lia; try discriminate; try tauto;
    try (intuition (lia || discriminate || congruence)).
Qed.

(** ** The loop of [send], one iteration at a time *)

Section Loop.

Context (self : Policy).
Context (next : nat -> HttpRequest -> Outcome).
Context (rand : nat -> Q).

Lemma send_loop_eq fuel i settings request :
  send_loop self next rand (S fuel) i settings request =
  let o := next i request in
  let once := [mkAttempt request settings o None] in
  if failing (mode settings) o then
    let charged := charge settings request (as_response o) (as_error o) in
    if is_exhausted charged then
      mkRun (conclude o (recorded o charged)) once (recorded o charged) request
    else
      let moved := relocate charged request in
      if rewinds (body_position charged) (body request) then
        let settings' := set_count (count (fst moved) + 1) (fst moved) in
        and_then
          (mkAttempt request settings o
             (Some (mkRetry (retry_hook settings')
                            (sleep self settings' (rand i)))))
          (send_loop self next rand fuel (S i) settings' (snd moved))
      else mkRun (conclude o (recorded o (fst moved))) once
                 (recorded o (fst moved)) (snd moved)
  else mkRun (conclude o settings) once settings request.
Proof.
  cbn [send_loop]. cbv zeta.
  destruct (next i request) as [response|err]; cbn [failing as_response as_error].
  - destruct (is_retry response (mode settings)); [|reflexivity].
    rewrite increment_eq. cbv zeta.
    destruct (is_exhausted _); [reflexivity|].
    destruct (rewinds _ _); reflexivity.
  - rewrite increment_eq. cbv zeta.
    destruct (is_exhausted _); [reflexivity|].
    destruct (rewinds _ _); reflexivity.
Qed.

End Loop.

(** What [charge] and [relocate] leave alone. *)
Lemma total_charge settings request response error :
  total (charge settings request response error) = total settings - 1.
Proof. destruct error as [[]|], response; reflexivity. Qed.

Lemma body_position_charge settings request response error :
  body_position (charge settings request response error)
  = body_position settings.
Proof. destruct error as [[]|], response; reflexivity. Qed.

Lemma mode_charge settings request response error :
  mode (charge settings request response error) = mode settings.
Proof. destruct error as [[]|], response; reflexivity. Qed.

Lemma hosts_charge settings request response error :
  hosts (charge settings request response error) = hosts settings.
Proof. destruct error as [[]|], response; reflexivity. Qed.

Lemma retry_secondary_charge settings request response error :
  retry_secondary (charge settings request response error)
  = retry_secondary settings.
Proof. destruct error as [[]|], response; reflexivity. Qed.

Lemma recorded_frame o settings :
  let settings' := recorded o settings in
  total settings' = total settings /\ connect settings' = connect settings
  /\ read settings' = read settings /\ status settings' = status settings
  /\ mode settings' = mode settings /\ count settings' = count settings.
Proof. destruct o; cbn; tauto. Qed.

Lemma mode_recorded o settings : mode (recorded o settings) = mode settings.
Proof. destruct o; reflexivity. Qed.

Lemma relocate_budgets settings request :
  let settings' := fst (relocate settings request) in
  total settings' = total settings /\ connect settings' = connect settings
  /\ read settings' = read settings /\ status settings' = status settings
  /\ body_position settings' = body_position settings
  /\ history settings' = history settings
  /\ hosts settings' = hosts settings
  /\ retry_secondary settings' = retry_secondary settings
  /\ count settings' = count settings.
Proof.
  unfold relocate. destruct (fails_over settings request); cbn; tauto.
Qed.

Lemma relocate_request settings request :
  let request' := snd (relocate settings request) in
  method request' = method request /\ body request' = body request.
Proof.
  unfold relocate. destruct (fails_over settings request); cbn; tauto.
Qed.

(** ** Shape of a run *)

Section Shape.

Context (self : Policy).
Context (next : nat -> HttpRequest -> Outcome).
Context (rand : nat -> Q).

Lemma send_loop_shape fuel : forall i settings request,
  (Z.to_nat (total settings) < fuel)%nat ->
  let run := send_loop self next rand fuel i settings request in
  exists earlier final,
    attempts run = earlier ++ [final]
    /\ Forall retried earlier
    /\ surfaced final run.
Proof.
  induction fuel as [|fuel IH]; intros i settings request Hfuel; [lia|].
  cbv zeta. rewrite send_loop_eq. cbv zeta.
  set (o := next i request).
  destruct (failing (mode settings) o) eqn:Hfail;
    [|exists [], (mkAttempt request settings o None);
      repeat split; [constructor]].
  set (charged := charge settings request (as_response o) (as_error o)).
  destruct (is_exhausted charged) eqn:Hex;
    [exists [], (mkAttempt request settings o None);
     repeat split; constructor|].
  destruct (rewinds (body_position charged) (body request));
    [|exists [], (mkAttempt request settings o None);
      repeat split; constructor].
  set (settings' := set_count _ _).
  destruct (IH (S i) settings' (snd (relocate charged request)))
    as (earlier & final & Heq & Hall & Hlast & Hres).
  { apply not_exhausted_spec in Hex.
    pose proof (relocate_budgets charged request) as (Ht & _).
    subst settings'. cbn [total set_count]. rewrite Ht.
    subst charged. rewrite total_charge in *. lia. }
  eexists (_ :: earlier), final. cbn [and_then attempts result final_settings].
  rewrite Heq. repeat split; try assumption.
  constructor; [|assumption].
  repeat split; cbn; eauto.
Qed.


End Shape.

(** ** Counting the sends *)

Lemma tally_cons hits a l :
  tally hits (a :: l) = Z.b2z (hits (sent_outcome a)) + tally hits l.
Proof.
  unfold tally. cbn [List.filter].
  destruct (hits (sent_outcome a)); cbn [length Z.b2z]; lia.
Qed.

Lemma tally_nonneg hits l : 0 <= tally hits l.
Proof. unfold tally. lia. Qed.

Lemma charge_budgets settings request o :
  let charged := charge settings request (as_response o) (as_error o) in
  total charged = total settings - 1
  /\ connect charged = connect settings - Z.b2z (hits_connect o)
  /\ read charged = read settings - Z.b2z (hits_read o)
  /\ status charged = status settings - Z.b2z (hits_status o).
Proof.
  destruct o as [response|[]]; cbn; repeat split; lia.
Qed.

Section Counting.

Context (self : Policy).
Context (next : nat -> HttpRequest -> Outcome).
Context (rand : nat -> Q).

Lemma send_loop_exact (N : nat) : forall fuel i settings request,
  (N < fuel)%nat ->
  Z.of_nat N <= total settings ->
  rewinds (body_position settings) (body request) = true ->
  let run := send_loop self next rand fuel i settings request in
  (forall k a, (k < N)%nat -> attempts run !! k = Some a ->
     failing (mode (sent_settings a)) (sent_outcome a) = true) ->
  tally hits_connect (take N (attempts run)) <= connect settings ->
  tally hits_read (take N (attempts run)) <= read settings ->
  tally hits_status (take N (attempts run)) <= status settings ->
  (forall a, attempts run !! N = Some a ->
     failing (mode (sent_settings a)) (sent_outcome a) = false
     \/ Z.of_nat N = total settings) ->
  length (attempts run) = S N.
Proof.
  induction N as [|N IH]; intros fuel i settings request Hfuel Htotal Hrew;
    (destruct fuel as [|fuel]; [lia|]);
    cbv zeta; rewrite send_loop_eq; cbv zeta;
    set (o := next i request);
    pose proof (charge_budgets settings request o) as (Ht & Hc & Hr & Hs);
    set (charged := charge settings request (as_response o) (as_error o)) in *;
    pose proof (not_exhausted_spec charged) as Hne;
    pose proof (body_position_charge settings request
                  (as_response o) (as_error o)) as Hpos;
    fold charged in Hpos;
    destruct (failing (mode settings) o) eqn:Hfail.
  - (* no failure allowed, the attempt fails: [total] was 0 *)
    destruct (is_exhausted charged) eqn:Hex; [reflexivity|].
    rewrite Hpos, Hrew. intros _ _ _ _ Hlast.
    destruct (Hlast _ eq_refl) as [Hno|Hzero]; [cbn in Hno; congruence|].
    destruct Hne as [Hne _]. specialize (Hne eq_refl). lia.
  - reflexivity.
  - destruct (is_exhausted charged) eqn:Hex.
    + (* the budgets cover the charge: no exhaustion *)
      intros _ Hct Hrd Hst _. cbn [attempts take] in Hct, Hrd, Hst.
      rewrite tally_cons in Hct, Hrd, Hst. cbn [sent_outcome] in *.
      assert (is_exhausted charged = false) as Hno; [|congruence].
      apply not_exhausted_spec. unfold tally in *. cbn in Hct, Hrd, Hst. lia.
    + rewrite Hpos, Hrew. cbn [and_then attempts].
      intros Hfails Hct Hrd Hst Hlast.
      cbn [take] in Hct, Hrd, Hst. rewrite tally_cons in Hct, Hrd, Hst.
      cbn [sent_outcome] in *.
      pose proof (relocate_budgets charged request)
        as (Et & Ec & Er & Es & Ep & _).
      pose proof (relocate_request charged request) as (_ & Eb).
      cbn [length]. f_equal.
      apply IH; cbn [total connect read status body_position set_count].
      * lia.
      * lia.
      * rewrite Ep, Eb, Hpos. exact Hrew.
      * intros k a Hk Ha. apply (Hfails (S k) a); [lia|exact Ha].
      * lia.
      * lia.
      * lia.
      * intros a Ha. destruct (Hlast a Ha) as [Hno|Hn]; [left; exact Hno|].
        right. lia.
  - (* a failure was promised for the first attempt *)
    intros Hfails. cbn [attempts] in Hfails.
    specialize (Hfails 0%nat _ ltac:(lia) eq_refl). cbn in Hfails. congruence.
Qed.

(** C3, amended: when the first [N] sends fail, [N] is within [total], the
    failures charged to [connect], [read] and [status] are within those
    budgets, the body can be replayed, and the send after them does not
    fail (or [N] is the whole of [total]), then [send] performs exactly
    [N + 1] sends and returns or raises on the last of them. *)
Theorem send_attempts_exact (request : PipelineRequest) (N : nat) :
  let run := send self next rand request in
  let settings := configure_retries self request in
  Z.of_nat N <= total settings ->
  rewinds (body_position settings) (body (http_request request)) = true ->
  (forall k a, (k < N)%nat -> attempts run !! k = Some a ->
     failing (mode (sent_settings a)) (sent_outcome a) = true) ->
  tally hits_connect (take N (attempts run)) <= connect settings ->
  tally hits_read (take N (attempts run)) <= read settings ->
  tally hits_status (take N (attempts run)) <= status settings ->
  (forall a, attempts run !! N = Some a ->
     failing (mode (sent_settings a)) (sent_outcome a) = false
     \/ Z.of_nat N = total settings) ->
  length (attempts run) = S N
  /\ exists final,
       attempts run !! N = Some final
       /\ result run = conclude (sent_outcome final) (final_settings run).
Proof.
  cbv zeta. intros Htotal Hrew Hfails Hct Hrd Hst Hlast.
  assert (length (attempts (send self next rand request)) = S N) as Hlen.
  { unfold send in *. apply send_loop_exact; try assumption. lia. }
  split; [exact Hlen|].
  unfold send in *.
  destruct (send_loop_shape self next rand
              (S (Z.to_nat (total (configure_retries self request))))
              0 (configure_retries self request) (http_request request))
    as (earlier & final & Heq & _ & _ & Hres); [lia|].
  exists final. split; [|exact Hres].
  rewrite Heq in *. rewrite length_app in Hlen. cbn in Hlen.
  assert (N = length earlier) as -> by lia.
  rewrite lookup_app_r by lia. rewrite Nat.sub_diag. reflexivity.
Qed.

End Counting.

(** ** More failures than the status budget allows *)

Example four_failures_run :
  let run := send TablesRetryPolicy_default four_failures midpoint
                  (request_of "GET" NoBody no_options) in
  length (attempts run) = 4%nat
  /\ result run
     = Returned (mkPipelineResponse
                   (mkHttpResponse 500 EmptyString (Some PRIMARY))
                   (Some (history (final_settings run))))
  /\ status (final_settings run) = -1
  /\ total (final_settings run) = 6.
Proof. vm_compute. repeat split. Qed.

(** C3 fails as stated: with the default budgets (total 10, status 3), four
    responses with status 500 followed by a success are within [total], yet
    the fourth response is returned and no fifth send is made. *)
Lemma status_budget_ends_before_total :
  ~ sends_one_more_than_failures TablesRetryPolicy_default four_failures
      midpoint (request_of "GET" NoBody no_options) 4.
Proof.
  unfold sends_one_more_than_failures. cbv zeta. intros H.
  assert (length (attempts (send TablesRetryPolicy_default four_failures
                              midpoint (request_of "GET" NoBody no_options)))
          = 4%nat) as Hlen by (vm_compute; reflexivity).
  rewrite H in Hlen; [discriminate| | |..].
  - vm_compute. discriminate.
  - reflexivity.
  - intros k a Hk Ha.
    destruct k as [|[|[|[|k]]]]; [| | | |lia];
      vm_compute in Ha; injection Ha as <-; vm_compute; reflexivity.
  - intros a Ha. vm_compute in Ha. discriminate.
Qed.

(** Two failures of different classes, then success: three sends. *)
Lemma send_attempts_exact_witness :
  let run := send TablesRetryPolicy_default
               (scripted [answer 503; Failed (ServiceRequestError 1)]
                         (answer 200))
               midpoint (request_of "GET" NoBody no_options) in
  length (attempts run) = 3%nat
  /\ exists final,
       attempts run !! 2%nat = Some final
       /\ result run = conclude (sent_outcome final) (final_settings run).
Proof.
  cbv zeta.
  apply (send_attempts_exact TablesRetryPolicy_default
           (scripted [answer 503; Failed (ServiceRequestError 1)] (answer 200))
           midpoint (request_of "GET" NoBody no_options) 2).
  - vm_compute. discriminate.
  - reflexivity.
  - intros k a Hk Ha.
    destruct k as [|[|k]]; [| |lia];
      vm_compute in Ha; injection Ha as <-; vm_compute; reflexivity.
  - vm_compute. discriminate.
  - vm_compute. discriminate.
  - vm_compute. discriminate.
  - intros a Ha. vm_compute in Ha. injection Ha as <-. left.
    vm_compute. reflexivity.
Defined.

(** ** One connect retry within a total of three *)

(** C4 fails as stated: the second connect-phase error already brings
    [connect] to -1, its error is raised, and there is no third attempt. *)
Lemma no_third_attempt :
  let run := send TablesRetryPolicy_default unreachable midpoint
                  (request_of "GET" NoBody one_connect_retry) in
  ~ third_error_raised run
  /\ result run <> Raised (ServiceRequestError 3)
  /\ length (attempts run) = 2%nat.
Proof.
  cbv zeta. split; [|split].
  - intros (third & Hthird & _). vm_compute in Hthird. discriminate.
  - vm_compute. discriminate.
  - vm_compute. reflexivity.
Qed.

Section ConnectBudget.

Context (self : Policy).
Context (next : nat -> HttpRequest -> Outcome).
Context (rand : nat -> Q).

(** C4, amended: with [total] 3 and [connect] 1 ([read] and [status] not
    negative, the body replayable), when every attempt fails in the connect
    phase, the second error brings [connect] to -1, exactly two sends are
    made, the error of the second one is raised, and [total] is left at 1. *)
Theorem second_connect_error_raised (request : PipelineRequest) :
  let run := send self next rand request in
  let settings := configure_retries self request in
  total settings = 3 ->
  connect settings = 1 ->
  0 <= read settings ->
  0 <= status settings ->
  rewinds (body_position settings) (body (http_request request)) = true ->
  (forall i request', hits_connect (next i request') = true) ->
  length (attempts run) = 2%nat
  /\ (exists second err,
        attempts run !! 1%nat = Some second
        /\ sent_outcome second = Failed err
        /\ result run = Raised err)
  /\ connect (final_settings run) = -1
  /\ total (final_settings run) = 1.
Proof.
  cbv zeta. unfold send.
  set (settings := configure_retries self request).
  set (request0 := http_request request).
  clearbody settings request0.
  intros Ht Hc Hr Hs Hrew Hnext. rewrite Ht.
  change (S (Z.to_nat 3)) with 4%nat.
  rewrite send_loop_eq. cbv zeta.
  pose proof (Hnext 0%nat request0) as H0.
  destruct (next 0%nat request0) as [?|[n0|?|?]]; try discriminate H0.
  cbn [failing as_response as_error].
  set (charged := charge settings request0 None (Some (ServiceRequestError n0))).
  assert (is_exhausted charged = false) as ->
    by (apply not_exhausted_spec; cbn; lia).
  change (body_position charged) with (body_position settings).
  rewrite Hrew.
  pose proof (relocate_budgets charged request0)
    as (Et & Ec & Er & Es & Ep & _).
  pose proof (relocate_request charged request0) as (_ & Eb).
  set (settings1 := set_count _ _).
  set (request1 := snd (relocate charged request0)) in *.
  rewrite send_loop_eq. cbv zeta.
  pose proof (Hnext 1%nat request1) as H1.
  destruct (next 1%nat request1) as [?|[n1|?|?]]; try discriminate H1.
  cbn [failing as_response as_error].
  set (charged1 := charge settings1 request1 None
                     (Some (ServiceRequestError n1))).
  pose proof (charge_budgets settings request0
                (Failed (ServiceRequestError n0))) as (Ft & Fc & _).
  pose proof (charge_budgets settings1 request1
                (Failed (ServiceRequestError n1))) as (Gt & Gc & _).
  cbn [as_response as_error hits_connect Z.b2z] in Ft, Fc, Gt, Gc.
  fold charged in Ft, Fc. fold charged1 in Gt, Gc.
  assert (connect charged1 = -1) as Hc1.
  { rewrite Gc. subst settings1. cbn [connect set_count]. lia. }
  assert (total charged1 = 1) as Ht1.
  { rewrite Gt. subst settings1. cbn [total set_count]. lia. }
  assert (is_exhausted charged1 = true) as ->
    by (apply is_exhausted_spec; lia).
  cbn [and_then attempts result final_settings length conclude].
  repeat split; try assumption.
  eexists _, _. repeat split.
Qed.

End ConnectBudget.

Lemma second_connect_error_raised_witness :
  let run := send TablesRetryPolicy_default unreachable midpoint
                  (request_of "GET" NoBody one_connect_retry) in
  length (attempts run) = 2%nat
  /\ (exists second err,
        attempts run !! 1%nat = Some second
        /\ sent_outcome second = Failed err
        /\ result run = Raised err)
  /\ connect (final_settings run) = -1
  /\ total (final_settings run) = 1.
Proof.
  cbv zeta.
  apply (second_connect_error_raised TablesRetryPolicy_default unreachable
           midpoint (request_of "GET" NoBody one_connect_retry)).
  - reflexivity.
  - reflexivity.
  - vm_compute. discriminate.
  - vm_compute. discriminate.
  - reflexivity.
  - intros i request'. reflexivity.
Defined.

(** ** Stream bodies that cannot be replayed *)

Section Streams.

Context (self : Policy).
Context (next : nat -> HttpRequest -> Outcome).
Context (rand : nat -> Q).


End Streams.



(** ** Requests with method PUT *)

Lemma relocate_put settings request :
  method request = "PUT" -> relocate settings request = (settings, request).
Proof. intros H. unfold relocate, fails_over. rewrite H. reflexivity. Qed.

Section Put.

Context (self : Policy).
Context (next : nat -> HttpRequest -> Outcome).
Context (rand : nat -> Q).

Lemma send_loop_put fuel : forall i settings request,
  method request = "PUT" ->
  let run := send_loop self next rand fuel i settings request in
  Forall (fun a => mode (sent_settings a) = mode settings
                   /\ sent_request a = request) (attempts run)
  /\ mode (final_settings run) = mode settings
  /\ final_request run = request.
Proof.
  induction fuel as [|fuel IH]; intros i settings request Hput; cbv zeta.
  - cbn. repeat split. constructor.
  - rewrite send_loop_eq. cbv zeta. rewrite relocate_put by exact Hput.
    cbn [fst snd].
    destruct (failing _ _); [|cbn; repeat split; repeat constructor].
    destruct (is_exhausted _);
      [cbn [attempts final_settings final_request]; rewrite mode_recorded;
       repeat split; [repeat constructor|apply mode_charge]|].
    destruct (rewinds _ _);
      [|cbn [attempts final_settings final_request]; rewrite mode_recorded;
        repeat split; [repeat constructor|apply mode_charge]].
    match goal with
    | |- context [send_loop _ _ _ fuel (S i) ?s request] =>
        destruct (IH (S i) s request Hput) as (Hall & Hmode & Hreq);
        assert (mode s = mode settings) as Hs by apply mode_charge
    end.
    cbn [and_then attempts final_settings final_request].
    rewrite Hs in *. repeat split; try assumption.
    constructor; [split; reflexivity|assumption].
Qed.

(** C6: for a PUT request, no call of [increment] changes the location mode
    (nor the URL), also with [retry_to_secondary] set and both hosts
    configured; throughout [send] every attempt is made in the initial mode
    on the initial request, and the mode is still the initial one at the
    end. *)
Theorem put_never_changes_location_mode (request : PipelineRequest) :
  method (http_request request) = "PUT" ->
  let run := send self next rand request in
  let initial := default PRIMARY (opt_location_mode (options request)) in
  (forall settings request' response error,
      method request' = "PUT" ->
      mode (fst (fst (increment settings request' response error)))
      = mode settings
      /\ snd (fst (increment settings request' response error)) = request')
  /\ Forall (fun a => mode (sent_settings a) = initial
                      /\ sent_request a = http_request request)
            (attempts run)
  /\ mode (final_settings run) = initial.
Proof.
  intros Hput. cbv zeta. split.
  - intros settings request' response error Hput'.
    rewrite increment_eq. cbv zeta. rewrite relocate_put by exact Hput'.
    destruct (is_exhausted _); [split; [apply mode_charge|reflexivity]|].
    destruct (rewinds _ _); cbn; (split; [apply mode_charge|reflexivity]).
  - unfold send.
    destruct (send_loop_put
                (S (Z.to_nat (total (configure_retries self request)))) 0
                (configure_retries self request) (http_request request) Hput)
      as (Hall & Hmode & _).
    split; assumption.
Qed.

End Put.

(** A PUT answered 500 twice, then 201, with failover available. *)
Lemma put_never_changes_location_mode_witness :
  let request := request_of "PUT" (BytesBody "{}") with_failover in
  let run := send TablesRetryPolicy_default
               (scripted [answer 500; answer 500] (answer 201))
               midpoint request in
  (forall settings request' response error,
      method request' = "PUT" ->
      mode (fst (fst (increment settings request' response error)))
      = mode settings
      /\ snd (fst (increment settings request' response error)) = request')
  /\ Forall (fun a => mode (sent_settings a) = PRIMARY
                      /\ sent_request a = http_request request)
            (attempts run)
  /\ mode (final_settings run) = PRIMARY.
Proof.
  cbv zeta.
  apply (put_never_changes_location_mode TablesRetryPolicy_default
           (scripted [answer 500; answer 500] (answer 201)) midpoint
           (request_of "PUT" (BytesBody "{}") with_failover)).
  reflexivity.
Defined.

Example put_run_has_three_attempts :
  length (attempts (send TablesRetryPolicy_default
                      (scripted [answer 500; answer 500] (answer 201))
                      midpoint
                      (request_of "PUT" (BytesBody "{}") with_failover)))
  = 3%nat.
Proof. vm_compute. reflexivity. Qed.

(** ** Errors of other classes *)

(** C10: when [increment] is called with an [AzureError] that is neither a
    [ServiceRequestError] nor a [ServiceResponseError], and no response, only
    [total] is charged: [connect], [read], [status] and the history stay as
    they were. *)
Theorem other_error_charges_total_only
    (settings : Settings) (request : HttpRequest) (ident : nat) :
  let settings' :=
    fst (fst (increment settings request None (Some (OtherAzureError ident)))) in
  total settings' = total settings - 1
  /\ connect settings' = connect settings
  /\ read settings' = read settings
  /\ status settings' = status settings
  /\ history settings' = history settings.
Proof.
  cbv zeta. rewrite increment_eq. cbv zeta.
  set (charged := charge settings request None (Some (OtherAzureError ident))).
  pose proof (relocate_budgets charged request)
    as (Et & Ec & Er & Es & _ & Eh & _).
  destruct (is_exhausted charged); [cbn; repeat split; lia|].
  destruct (rewinds _ _); cbn [fst snd total connect read status history set_count];
    rewrite Et, Ec, Er, Es, Eh; cbn; repeat split; lia.
Qed.

(** Such an error followed by a success: the response comes back without a
    history, although one unit of [total] is gone. *)
Example other_error_leaves_no_history :
  let run := send TablesRetryPolicy_default
               (scripted [Failed (OtherAzureError 1)] (answer 200))
               midpoint (request_of "GET" NoBody no_options) in
  result run
  = Returned (mkPipelineResponse
                (mkHttpResponse 200 EmptyString (Some PRIMARY)) None)
  /\ length (attempts run) = 2%nat
  /\ total (final_settings run) = 9.
Proof. vm_compute. repeat split. Qed.

(** ** Failover *)

Lemma hosts_usable_spec (m : Hosts) :
  hosts_usable (Some m) = true <->
  m <> ∅ /\ forall location name, m !! location = Some name -> host_truthy name = true.
Proof.
  unfold hosts_usable.
  rewrite andb_true_iff, negb_true_iff, bool_decide_eq_false, forallb_forall.
  split; intros [Hne Hall]; (split; [exact Hne|]).
  - intros location name Hin. apply Hall, list_elem_of_In, list_elem_of_fmap.
    exists (location, name). split; [reflexivity|].
    apply elem_of_map_to_list. exact Hin.
  - intros name Hin.
    apply list_elem_of_In, list_elem_of_fmap in Hin as ([location name'] & -> & Hin).
    apply elem_of_map_to_list in Hin. exact (Hall _ _ Hin).
Qed.

(** With both locations configured the dictionary passes the test of
    [_set_next_host_location]. *)
Lemma both_configured_usable (m : Hosts) :
  configured m PRIMARY = true -> configured m SECONDARY = true ->
  hosts_usable (Some m) = true.
Proof.
  unfold configured. intros Hp Hs. apply hosts_usable_spec. split.
  - intros ->. rewrite lookup_empty in Hp. discriminate.
  - intros [] name Hin; rewrite Hin in *; assumption.
Qed.

Lemma fails_over_true settings request :
  fails_over settings request = true <->
  method request <> "PUT"%string /\ retry_secondary settings = true
  /\ hosts_usable (hosts settings) = true.
Proof.
  unfold fails_over. rewrite !andb_true_iff, negb_true_iff, String.eqb_neq.
  tauto.
Qed.

Lemma relocate_stays settings request :
  fails_over settings request = false ->
  relocate settings request = (settings, request).
Proof. unfold relocate. intros ->. reflexivity. Qed.

Lemma fails_over_false settings request :
  method request = "PUT"%string \/ retry_secondary settings = false
  \/ hosts_usable (hosts settings) = false ->
  fails_over settings request = false.
Proof.
  unfold fails_over. intros [ -> | [ -> | -> ] ]; [reflexivity| |];
    rewrite ?andb_false_r; reflexivity.
Qed.

(** C7, amended: on a failure that leaves no budget negative, when the
    method is not PUT, [retry_secondary] is set and both locations are
    configured in [hosts], [increment] switches the location mode to the
    alternate one and replaces the network location of the parsed request
    URL by the hostname configured for it; the scheme, path, parameters,
    query and fragment it parsed are handed on as they are, and the method
    and the body are untouched.  The mode is switched only if the method is
    not PUT, [retry_secondary] is set and [hosts] is a non-empty dictionary
    with no empty hostname; for a PUT request, with [retry_secondary] off,
    or with [hosts] missing, empty or holding an empty hostname, mode and
    request stay as they are.  A PUT request never fails over.  Nothing is
    said of a [hosts] dictionary that names one location only. *)
Theorem failover_rule (settings : Settings) (request : HttpRequest)
    (response : option HttpResponse) (error : option AzureError) :
  let settings' := fst (fst (increment settings request response error)) in
  let request' := snd (fst (increment settings request response error)) in
  is_exhausted (charge settings request response error) = false ->
  (forall m,
      method request <> "PUT"%string ->
      retry_secondary settings = true ->
      hosts settings = Some m ->
      configured m PRIMARY = true ->
      configured m SECONDARY = true ->
      mode settings' = alternate (mode settings)
      /\ exists name,
           m !! alternate (mode settings) = Some (Some name)
           /\ name <> EmptyString
           /\ request'
              = mkHttpRequest (method request)
                              (replace_netloc (url request) name)
                              (body request))
  /\ (mode settings' <> mode settings ->
      method request <> "PUT"%string
      /\ retry_secondary settings = true
      /\ exists m,
           hosts settings = Some m /\ m <> ∅
           /\ forall location name,
                m !! location = Some name -> host_truthy name = true)
  /\ (method request = "PUT"%string
      \/ retry_secondary settings = false
      \/ hosts settings = None
      \/ hosts settings = Some ∅
      \/ (exists m location name,
            hosts settings = Some m /\ m !! location = Some name
            /\ host_truthy name = false) ->
      mode settings' = mode settings /\ request' = request)
  /\ (method request = "PUT"%string ->
      mode settings' = mode settings /\ request' = request).
Proof.
  cbv zeta. intros Hex. rewrite increment_eq. cbv zeta. rewrite Hex.
  set (charged := charge settings request response error).
  pose proof (fails_over_true charged request) as Hiff.
  unfold charged in Hiff at 2 3.
  rewrite retry_secondary_charge, hosts_charge in Hiff.
  pose proof (mode_charge settings request response error) as Hmode.
  fold charged in Hmode.
  pose proof (hosts_charge settings request response error) as Hhosts.
  fold charged in Hhosts.
  assert (fst (fst (if rewinds (body_position charged) (body request)
                    then (set_count (count (fst (relocate charged request)) + 1)
                            (fst (relocate charged request)),
                          snd (relocate charged request), true)
                    else (fst (relocate charged request),
                          snd (relocate charged request), false)))
          = (if rewinds (body_position charged) (body request)
             then set_count (count (fst (relocate charged request)) + 1)
                    (fst (relocate charged request))
             else fst (relocate charged request))) as ->
    by (destruct (rewinds _ _); reflexivity).
  assert (snd (fst (if rewinds (body_position charged) (body request)
                    then (set_count (count (fst (relocate charged request)) + 1)
                            (fst (relocate charged request)),
                          snd (relocate charged request), true)
                    else (fst (relocate charged request),
                          snd (relocate charged request), false)))
          = snd (relocate charged request)) as ->
    by (destruct (rewinds _ _); reflexivity).
  assert (forall s, mode (if rewinds (body_position charged) (body request)
                          then set_count (count s + 1) s else s) = mode s) as ->
    by (intros s; destruct (rewinds _ _); reflexivity).
  assert (fails_over charged request = false ->
          mode (fst (relocate charged request)) = mode settings
          /\ snd (relocate charged request) = request) as Hstay.
  { intros Hfo. rewrite relocate_stays by exact Hfo. cbn [fst snd].
    split; [exact Hmode|reflexivity]. }
  assert (fails_over charged request = true ->
          mode (fst (relocate charged request)) = alternate (mode settings)
          /\ snd (relocate charged request)
             = mkHttpRequest (method request)
                 (replace_netloc (url request)
                    (host_of (hosts settings) (alternate (mode settings))))
                 (body request)) as Hmove.
  { intros Hfo. unfold relocate. rewrite Hfo.
    cbn [fst snd mode set_mode]. rewrite Hmode, Hhosts. split; reflexivity. }
  split; [|split; [|split]].
  - intros m Hput Hsec Hm Hp Hs.
    destruct Hmove as (Hflip & Hreq).
    { apply Hiff. rewrite Hm. repeat split; try assumption.
      apply both_configured_usable; assumption. }
    split; [exact Hflip|].
    assert (configured m (alternate (mode settings)) = true) as Halt
      by (destruct (mode settings); assumption).
    unfold configured in Halt.
    destruct (m !! alternate (mode settings)) as [[name|]|] eqn:Hname;
      try discriminate.
    exists name. split; [reflexivity|]. split.
    + intros ->. discriminate.
    + rewrite Hreq, Hm. cbn [host_of]. rewrite Hname. reflexivity.
  - intros Hflip.
    destruct (fails_over charged request) eqn:Hfo;
      [|destruct (Hstay eq_refl) as (Hsame & _); contradiction].
    destruct Hiff as (Hiff & _). destruct (Hiff eq_refl) as (Hput & Hsec & Huse).
    split; [exact Hput|]. split; [exact Hsec|].
    destruct (hosts settings) as [m|]; [|discriminate].
    exists m. split; [reflexivity|]. apply hosts_usable_spec. exact Huse.
  - intros Hoff. apply Hstay.
    destruct (fails_over charged request) eqn:Hfo; [|reflexivity].
    destruct Hiff as (Hiff & _). destruct (Hiff eq_refl) as (Hput & Hsec & Huse).
    destruct Hoff as [Hp|[Hs|[Hn|[He|(m & location & name & Hm & Hl & Hf)]]]].
    + contradiction.
    + congruence.
    + rewrite Hn in Huse. discriminate.
    + rewrite He in Huse. apply hosts_usable_spec in Huse as (Hne & _).
      contradiction Hne. reflexivity.
    + rewrite Hm in Huse. apply hosts_usable_spec in Huse as (_ & Hall).
      rewrite (Hall _ _ Hl) in Hf. discriminate.
  - intros Hput. apply Hstay. apply fails_over_false. left.
    exact Hput.
Qed.

(** A GET with both hosts configured fails over to the secondary host. *)
Lemma failover_rule_witness :
  let request := request_of "GET" NoBody with_failover in
  let after :=
    increment (first_settings request) (http_request request)
              (Some server_error) None in
  is_exhausted (charge (first_settings request) (http_request request)
                       (Some server_error) None) = false
  /\ mode (fst (fst after)) = SECONDARY
  /\ url (snd (fst after))
     = mkUrl "https" "account-secondary.table.core.windows.net" "/Tables"
             EmptyString EmptyString EmptyString.
Proof.
  cbv zeta.
  assert (is_exhausted
            (charge (first_settings (request_of "GET" NoBody with_failover))
                    (http_request (request_of "GET" NoBody with_failover))
                    (Some server_error) None) = false) as Hex
    by (vm_compute; reflexivity).
  split; [exact Hex|].
  destruct (failover_rule
              (first_settings (request_of "GET" NoBody with_failover))
              (http_request (request_of "GET" NoBody with_failover))
              (Some server_error) None Hex) as (Hflip & _).
  destruct (Hflip both_hosts) as (Hmode & name & Hname & _ & Hreq).
  - discriminate.
  - reflexivity.
  - reflexivity.
  - vm_compute. reflexivity.
  - vm_compute. reflexivity.
  - split; [exact Hmode|].
    rewrite Hreq. vm_compute in Hname. injection Hname as <-. reflexivity.
Defined.

(** C7 fails as stated: only PUT is kept from failing over, so a DELETE moves
    to the secondary location; and a [hosts] dictionary that names the
    primary host alone passes the test of [_set_next_host_location], after
    which the URL is left without a network location. *)
Lemma delete_fails_over :
  ~ no_failover_for_writes /\ ~ failover_takes_both_hosts.
Proof.
  split.
  - intros H.
    specialize (H (first_settings (request_of "DELETE" NoBody with_failover))
                  (http_request (request_of "DELETE" NoBody with_failover))
                  (Some server_error) None eq_refl).
    vm_compute in H. discriminate.
  - intros H.
    destruct (H (first_settings
                   (request_of "GET" NoBody
                      (mkOptions None None None None (Some true) None
                                 (Some only_primary) false)))
                (mkHttpRequest "GET" tables_url NoBody)
                (Some server_error) None only_primary eq_refl) as [_ Hs].
    + vm_compute. discriminate.
    + vm_compute in Hs. discriminate.
Qed.

(** With the primary host alone in [hosts], the mode is switched all the
    same, although the comment in [_set_next_host_location] speaks of
    [more than one possible location]: the request is left without a
    network location. *)
Example single_host_failover :
  let request :=
    request_of "GET" NoBody
      (mkOptions None None None None (Some true) None (Some only_primary) false) in
  let after :=
    increment (first_settings request) (http_request request)
              (Some server_error) None in
  mode (fst (fst after)) = SECONDARY
  /\ netloc (url (snd (fst after))) = EmptyString.
Proof. vm_compute. split; reflexivity. Qed.

(** ** A retry given up after the failover *)

Section Abort.

Context (self : Policy).
Context (next : nat -> HttpRequest -> Outcome).
Context (rand : nat -> Q).

(** C9: at any point of the loop, when a retryable response leaves the
    budgets non-negative, the request is not a PUT, [retry_secondary] is
    set and both hosts are configured, but the stream body cannot be
    rewound, the retry is given up after the failover has happened: the
    response of this last attempt, which was sent in the current mode to
    the current URL, is returned annotated with the alternate mode, and the
    request is left pointing at the alternate host. *)
Theorem aborted_retry_reports_other_location
    (fuel i : nat) (settings : Settings) (request : HttpRequest)
    (response : PipelineResponse) (m : Hosts)
    (tell : option Z) (seek : Z -> bool) :
  next i request = Responded response ->
  is_retry response (mode settings) = true ->
  is_exhausted (charge settings request (Some (http_response response)) None)
  = false ->
  method request <> "PUT"%string ->
  retry_secondary settings = true ->
  hosts settings = Some m ->
  configured m PRIMARY = true ->
  configured m SECONDARY = true ->
  body request = StreamBody tell seek ->
  (body_position settings = None
   \/ exists position,
        body_position settings = Some position /\ seek position = false) ->
  let run := send_loop self next rand (S fuel) i settings request in
  attempts run = [mkAttempt request settings (Responded response) None]
  /\ (exists returned,
        result run = Returned returned
        /\ location_mode (http_response returned)
           = Some (alternate (mode settings))
        /\ status_code (http_response returned)
           = status_code (http_response response))
  /\ mode (final_settings run) = alternate (mode settings)
  /\ url (final_request run)
     = replace_netloc (url request)
         (host_of (hosts settings) (alternate (mode settings))).
Proof.
  intros Hnext Hretry Hex Hput Hsec Hhosts Hp Hs Hbody Hstuck. cbv zeta.
  rewrite send_loop_eq. cbv zeta. rewrite Hnext.
  cbn [failing as_response as_error]. rewrite Hretry, Hex.
  set (charged := charge settings request (Some (http_response response)) None).
  assert (rewinds (body_position charged) (body request) = false) as ->.
  { subst charged. rewrite body_position_charge, Hbody.
    destruct Hstuck as [->|(position & -> & Hseek)]; [reflexivity|exact Hseek]. }
  assert (fails_over charged request = true) as Hfo.
  { apply fails_over_true. subst charged.
    rewrite retry_secondary_charge, hosts_charge, Hhosts.
    repeat split; [exact Hput|exact Hsec|].
    apply both_configured_usable; assumption. }
  unfold relocate. rewrite Hfo.
  cbn [fst snd attempts result final_settings final_request conclude mode
       set_mode url].
  subst charged. rewrite mode_charge, hosts_charge.
  repeat split. eexists. repeat split.
Qed.

End Abort.

(** A POST whose stream body gives no position, answered 503. *)
Lemma aborted_retry_reports_other_location_witness :
  let request :=
    request_of "POST" (StreamBody None (fun _ => true)) with_failover in
  let run := send_loop TablesRetryPolicy_default
               (scripted [answer 503] (answer 200)) midpoint 1 0
               (first_settings request) (http_request request) in
  (exists returned,
      result run = Returned returned
      /\ location_mode (http_response returned) = Some SECONDARY
      /\ status_code (http_response returned) = 503)
  /\ Forall (fun a => mode (sent_settings a) = PRIMARY
                      /\ netloc (url (sent_request a))
                         = "account.table.core.windows.net"%string)
            (attempts run)
  /\ netloc (url (final_request run))
     = "account-secondary.table.core.windows.net"%string.
Proof.
  cbv zeta.
  destruct (aborted_retry_reports_other_location TablesRetryPolicy_default
              (scripted [answer 503] (answer 200)) midpoint 0 0
              (first_settings
                 (request_of "POST" (StreamBody None (fun _ => true))
                    with_failover))
              (http_request
                 (request_of "POST" (StreamBody None (fun _ => true))
                    with_failover))
              (mkPipelineResponse (mkHttpResponse 503 EmptyString None) None)
              both_hosts None (fun _ => true))
    as (Hattempts & Hreturned & _ & Hurl).
  - reflexivity.
  - reflexivity.
  - vm_compute. reflexivity.
  - discriminate.
  - reflexivity.
  - reflexivity.
  - vm_compute. reflexivity.
  - vm_compute. reflexivity.
  - reflexivity.
  - left. reflexivity.
  - split; [exact Hreturned|]. split.
    + rewrite Hattempts. repeat constructor.
    + rewrite Hurl. reflexivity.
Defined.

(** ** Backoff *)

Lemma random_range_start_max (b jitter : Z) :
  random_range_start b jitter = Z.max 0 (b - jitter).
Proof. unfold random_range_start. destruct (Z.gtb_spec b jitter); lia. Qed.

Lemma uniform_within (a b : Z) (u : Q) :
  a <= b -> (0 <= u <= 1)%Q ->
  (inject_Z a <= uniform a b u <= inject_Z b)%Q.
Proof.
  intros Hab Hu. unfold uniform. rewrite Zle_Qle in Hab.
  set (x := inject_Z a) in *. set (y := inject_Z b) in *. nra.
Qed.

(** C8: for the exponential policies, the backoff is [initial_backoff] plus
    (0 at count 0, else [increment_base] raised to the count); the time
    returned is the uniform draw between that backoff minus the jitter, not
    below 0, and that backoff plus the jitter, and lies between the two when
    neither the backoff nor the jitter is negative.  With 15, 3 and no jitter
    it is exactly 15, 18 and 24 at counts 0, 1 and 2. *)
Theorem exponential_backoff_time (self : Policy) (settings : Settings) (u : Q) :
  retry_class self <> LinearRetry ->
  (0 <= u <= 1)%Q ->
  let jitter := random_jitter_range self in
  let b :=
    initial_backoff self
    + (if count settings =? 0 then 0
       else increment_base self ^ count settings) in
  let low := Z.max 0 (b - jitter) in
  let high := b + jitter in
  let time := get_backoff_time self settings u in
  (time == inject_Z low + (inject_Z high - inject_Z low) * u)%Q
  /\ (0 <= jitter -> 0 <= b -> (inject_Z low <= time <= inject_Z high)%Q)
  /\ (initial_backoff self = 15 -> increment_base self = 3 -> jitter = 0 ->
      (count settings = 0 -> (time == 15)%Q)
      /\ (count settings = 1 -> (time == 18)%Q)
      /\ (count settings = 2 -> (time == 24)%Q)).
Proof.
  intros Hclass Hu. cbv zeta.
  assert (get_backoff_time self settings u
          = uniform (Z.max 0 (exponential_backoff self settings
                              - random_jitter_range self))
                    (exponential_backoff self settings
                     + random_jitter_range self) u) as ->.
  { unfold get_backoff_time, TablesRetryPolicy_get_backoff_time,
      ExponentialRetry_get_backoff_time, random_range_end.
    rewrite random_range_start_max.
    destruct (retry_class self); [reflexivity|reflexivity|contradiction]. }
  fold (exponential_backoff self settings).
  split; [reflexivity|]. split.
  - intros Hj Hb. apply uniform_within; [lia|exact Hu].
  - unfold exponential_backoff. intros -> -> ->.
    repeat split; intros ->;
      [change (uniform 15 15 u == 15)%Q
      |change (uniform 18 18 u == 18)%Q
      |change (uniform 24 24 u == 24)%Q];
      unfold uniform, inject_Z; ring.
Qed.

(** The third retry of a policy with 15, 3 and no jitter waits 24 seconds. *)
Lemma exponential_backoff_time_witness :
  (get_backoff_time (mkPolicy ExponentialRetry 15 3 0 0 3 3 3 3 false)
     (set_count 2 (first_settings (request_of "GET" NoBody no_options)))
     (1 # 2) == 24)%Q.
Proof.
  destruct (exponential_backoff_time
              (mkPolicy ExponentialRetry 15 3 0 0 3 3 3 3 false)
              (set_count 2 (first_settings (request_of "GET" NoBody no_options)))
              (1 # 2)%Q) as (_ & _ & Hvalues).
  - discriminate.
  - split; discriminate.
  - destruct (Hvalues eq_refl eq_refl eq_refl) as (_ & _ & H24).
    exact (H24 eq_refl).
Defined.

(** The initialisers of [ExponentialRetry] and [LinearRetry] do not hand
    [random_jitter_range] (nor, for the former, [initial_backoff] and
    [increment_base]) on to the base initialiser, which then assigns its own
    defaults: the values given to the constructor are lost. *)
Remark ExponentialRetry_init_defaults
    (initial base total : Z) (secondary : bool) (jitter : Z) (kwargs : Kwargs) :
  let self := ExponentialRetry_init initial base total secondary jitter kwargs in
  initial_backoff self = 15 /\ increment_base self = 3
  /\ random_jitter_range self = 3.
Proof. repeat split. Qed.

(** The budgets given to a constructor are assigned, and then assigned again
    by the initialiser of the [azure.core] base class from keyword arguments
    that are no longer there: a policy object starts with 10, 3, 3 and 3,
    whatever the constructor was given.  (The options of a request still
    override them, see [configure_retries].) *)
Remark TablesRetryPolicy_init_budgets
    (self : Policy) (initial base total : Z) (secondary : bool) (jitter : Z)
    (kwargs : Kwargs) :
  let policy :=
    TablesRetryPolicy_init self initial base total secondary jitter kwargs in
  total_retries policy = 10 /\ connect_retries policy = 3
  /\ read_retries policy = 3 /\ status_retries policy = 3.
Proof. repeat split. Qed.

Remark LinearRetry_init_jitter
    (interval total : Z) (secondary : bool) (jitter : Z) (kwargs : Kwargs) :
  let self := LinearRetry_init interval total secondary jitter kwargs in
  backoff self = interval /\ random_jitter_range self = 3.
Proof. repeat split. Qed.

(** * Further properties of the retry loop *)

(** ** The trace of a run *)

Section Trace.

Context (self : Policy).
Context (next : nat -> HttpRequest -> Outcome).
Context (rand : nat -> Q).

Lemma send_loop_follows fuel : forall i settings request,
  (Z.to_nat (total settings) < fuel)%nat ->
  let run := send_loop self next rand fuel i settings request in
  follows self next rand i settings request (attempts run)
          (final_settings run, final_request run).
Proof.
  induction fuel as [|fuel IH]; intros i settings request Hfuel; [lia|].
  cbv zeta. rewrite send_loop_eq. cbv zeta.
  set (o := next i request).
  destruct (failing (mode settings) o) eqn:Hfail.
  - set (charged := charge settings request (as_response o) (as_error o)).
    destruct (is_exhausted charged) eqn:Hex.
    + cbn. unfold continues, closing, stopping, charged_after. cbn.
      fold o charged. rewrite Hfail, Hex. repeat split.
    + destruct (rewinds (body_position charged) (body request)) eqn:Hrew.
      * set (settings' := set_count _ _).
        specialize (IH (S i) settings' (snd (relocate charged request))).
        assert (Z.to_nat (total settings') < fuel)%nat as Hfuel'.
        { apply not_exhausted_spec in Hex.
          pose proof (relocate_budgets charged request) as (Ht & _).
          subst settings'. cbn [total set_count]. rewrite Ht.
          subst charged. rewrite total_charge in *. lia. }
        specialize (IH Hfuel'). cbv zeta in IH.
        cbn [and_then attempts final_settings final_request follows
             sent_settings sent_request sent_outcome sent_retry].
        destruct (attempts (send_loop self next rand fuel (S i) settings'
                              (snd (relocate charged request)))) as [|b l'] eqn:Hl;
          [destruct IH|].
        split; [reflexivity|]. split; [reflexivity|]. split; [reflexivity|].
        split; [|split; [reflexivity|exact IH]].
        unfold continues, charged_after. cbn. fold o charged.
        rewrite Hfail, Hex, Hrew. reflexivity.
      * cbn. unfold continues, closing, stopping, charged_after. cbn.
        fold o charged. rewrite Hfail, Hex, Hrew. repeat split.
  - cbn. unfold continues, closing. cbn. fold o. rewrite Hfail. repeat split.
Qed.

Lemma send_follows request :
  let run := send self next rand request in
  follows self next rand 0 (configure_retries self request)
          (http_request request) (attempts run)
          (final_settings run, final_request run).
Proof. cbv zeta. unfold send. apply send_loop_follows. lia. Qed.

(** A property of the loop state that every retry keeps holds at every
    attempt. *)
Lemma follows_invariant (P : nat -> Settings -> HttpRequest -> Prop) :
  (forall i a, P i (sent_settings a) (sent_request a) ->
               continues a = true ->
               P (S i) (next_settings a) (next_request a)) ->
  forall l i settings request final,
    follows self next rand i settings request l final ->
    P i settings request ->
    forall k a, l !! k = Some a -> P (i + k)%nat (sent_settings a) (sent_request a).
Proof.
  intros Hstep. induction l as [|b l IH]; intros i settings request final Hf HP k a Hk;
    [destruct Hf|].
  cbn [follows] in Hf. destruct Hf as (Hs & Hr & _ & Hrest).
  destruct k as [|k].
  - cbn in Hk. injection Hk as <-. rewrite Hs, Hr, Nat.add_0_r. exact HP.
  - cbn in Hk. destruct l as [|c l]; [discriminate|].
    destruct Hrest as (Hcont & _ & Hf).
    replace (i + S k)%nat with (S i + k)%nat by lia.
    apply (IH _ _ _ _ Hf); [|exact Hk].
    apply Hstep; [rewrite Hs, Hr; exact HP|exact Hcont].
Qed.

End Trace.

(** What [follows] says of one attempt, of two consecutive attempts, and of
    the last attempt. *)
Lemma follows_outcome self next rand l : forall i settings request final k a,
  follows self next rand i settings request l final ->
  l !! k = Some a ->
  sent_outcome a = next (i + k)%nat (sent_request a).
Proof.
  induction l as [|b l IH]; intros i settings request final k a Hf Hk;
    [destruct Hf|].
  cbn [follows] in Hf. destruct Hf as (Hs & Hr & Ho & Hrest).
  destruct k as [|k].
  - cbn in Hk. injection Hk as <-. rewrite Nat.add_0_r, Hr. exact Ho.
  - cbn in Hk. destruct l as [|c l]; [discriminate|].
    destruct Hrest as (_ & _ & Hf).
    replace (i + S k)%nat with (S i + k)%nat by lia.
    exact (IH _ _ _ _ _ _ Hf Hk).
Qed.

Lemma follows_step self next rand l : forall i settings request final k a b,
  follows self next rand i settings request l final ->
  l !! k = Some a -> l !! S k = Some b ->
  continues a = true
  /\ sent_retry a
     = Some (mkRetry (retry_hook (next_settings a))
                     (sleep self (next_settings a) (rand (i + k)%nat)))
  /\ sent_settings b = next_settings a
  /\ sent_request b = next_request a.
Proof.
  induction l as [|c l IH]; intros i settings request final k a b Hf Ha Hb;
    [destruct Hf|].
  cbn [follows] in Hf. destruct Hf as (Hs & Hr & Ho & Hrest).
  destruct l as [|d l]; [destruct k; discriminate|].
  destruct Hrest as (Hcont & Hretry & Hf).
  destruct k as [|k].
  - cbn in Ha, Hb. injection Ha as <-. injection Hb as <-.
    rewrite Nat.add_0_r. cbn [follows] in Hf.
    destruct Hf as (Hs' & Hr' & _). auto.
  - replace (i + S k)%nat with (S i + k)%nat by lia.
    exact (IH _ _ _ _ _ _ _ Hf Ha Hb).
Qed.

Lemma follows_last self next rand l : forall i settings request final a,
  follows self next rand i settings request l final ->
  last l = Some a ->
  continues a = false /\ sent_retry a = None /\ final = closing a.
Proof.
  induction l as [|b l IH]; intros i settings request final a Hf Ha;
    [destruct Hf|].
  cbn [follows] in Hf. destruct Hf as (_ & _ & _ & Hrest).
  destruct l as [|c l].
  - cbn in Ha. injection Ha as <-. exact Hrest.
  - destruct Hrest as (_ & _ & Hf).
    apply (IH _ _ _ _ _ Hf). exact Ha.
Qed.


(** What a retry does to the settings. *)
Lemma next_settings_fields (a : Attempt) :
  continues a = true ->
  total (next_settings a) = total (sent_settings a) - 1
  /\ 0 <= total (next_settings a)
  /\ connect (next_settings a)
     = connect (sent_settings a) - Z.b2z (hits_connect (sent_outcome a))
  /\ read (next_settings a)
     = read (sent_settings a) - Z.b2z (hits_read (sent_outcome a))
  /\ status (next_settings a)
     = status (sent_settings a) - Z.b2z (hits_status (sent_outcome a))
  /\ count (next_settings a) = count (sent_settings a) + 1
  /\ history (next_settings a) = history (sent_settings a) ++ history_entry a
  /\ hook (next_settings a) = hook (sent_settings a)
  /\ hosts (next_settings a) = hosts (sent_settings a)
  /\ retry_secondary (next_settings a) = retry_secondary (sent_settings a)
  /\ body_position (next_settings a) = body_position (sent_settings a).
Proof.
  unfold continues. rewrite !andb_true_iff, negb_true_iff.
  intros [[_ Hex] _]. apply not_exhausted_spec in Hex.
  unfold next_settings, charged_after in *. cbv zeta.
  pose proof (charge_budgets (sent_settings a) (sent_request a) (sent_outcome a))
    as (Ht & Hc & Hr & Hs).
  set (charged := charge _ _ _ _) in *.
  pose proof (relocate_budgets charged (sent_request a))
    as (Et & Ec & Er & Es & Ep & Eh & Eo & Ese & Eco).
  cbn [total connect read status count history hook hosts retry_secondary
       body_position set_count].
  rewrite Et, Ec, Er, Es, Ep, Eh, Eo, Ese, Eco.
  assert (hook (fst (relocate charged (sent_request a)))
          = hook (sent_settings a)) as ->.
  { unfold relocate. destruct (fails_over _ _); cbn; subst charged;
      unfold history_entry; destruct (sent_outcome a) as [?|[]]; reflexivity. }
  subst charged. unfold history_entry.
  destruct (sent_outcome a) as [?|[]]; cbn in *;
    rewrite ?app_nil_r; repeat split; lia.
Qed.

Lemma next_request_fields (a : Attempt) :
  method (next_request a) = method (sent_request a)
  /\ body (next_request a) = body (sent_request a).
Proof.
  unfold next_request, relocate. destruct (fails_over _ _); cbn; tauto.
Qed.

(** ** Bounds and bookkeeping of a run *)


Lemma failures_cons a l :
  failures (a :: l)
  = if failing (mode (sent_settings a)) (sent_outcome a)
    then a :: failures l else failures l.
Proof. reflexivity. Qed.

Lemma follows_budgets self next rand l : forall i settings request final,
  follows self next rand i settings request l final ->
  total (fst final) = total settings - Z.of_nat (length (failures l))
  /\ connect (fst final) = connect settings - tally hits_connect (failures l)
  /\ read (fst final) = read settings - tally hits_read (failures l)
  /\ status (fst final) = status settings - tally hits_status (failures l).
Proof.
  induction l as [|a l IH]; intros i settings request final Hf; [destruct Hf|].
  cbn [follows] in Hf. destruct Hf as (Hs & Hr & _ & Hrest).
  destruct l as [|b l].
  - destruct Hrest as (_ & _ & ->). unfold closing, failures. cbn [List.filter].
    destruct (failing (mode (sent_settings a)) (sent_outcome a)) eqn:Hfail.
    + pose proof (charge_budgets (sent_settings a) (sent_request a)
                    (sent_outcome a)) as (Ht & Hc & Hrd & Hst).
      fold (charged_after a) in Ht, Hc, Hrd, Hst.
      pose proof (relocate_budgets (charged_after a) (sent_request a))
        as (Et & Ec & Er & Es & _).
      destruct (recorded_frame (sent_outcome a) (fst (stopping a)))
        as (Rt & Rc & Rr & Rs & _).
      rewrite !tally_cons. unfold tally. cbn [List.filter length fst].
      rewrite Rt, Rc, Rr, Rs, <- Hs. unfold stopping.
      destruct (is_exhausted (charged_after a)); cbn [fst];
        rewrite ?Et, ?Ec, ?Er, ?Es; repeat split; lia.
    + cbn [fst length]. unfold tally. cbn [List.filter length].
      rewrite <- Hs. repeat split; lia.
  - destruct Hrest as (Hcont & _ & Hf).
    destruct (IH _ _ _ _ Hf) as (It & Ic & Ir & Ist).
    pose proof (next_settings_fields a Hcont)
      as (Ht & _ & Hc & Hrd & Hst & _).
    assert (failing (mode (sent_settings a)) (sent_outcome a) = true) as Hfail.
    { unfold continues in Hcont. rewrite !andb_true_iff in Hcont. tauto. }
    rewrite (failures_cons a (b :: l)), Hfail.
    set (rest := failures (b :: l)) in *.
    rewrite !tally_cons. cbn [length].
    rewrite It, Ic, Ir, Ist, Ht, Hc, Hrd, Hst, <- Hs.
    repeat split; lia.
Qed.

(** The history at the end of a run. *)
Lemma annotate_last_snoc m h e :
  annotate_last m (h ++ [e]) = h ++ [annotate_entry m e].
Proof.
  induction h as [|e' h IH]; [reflexivity|].
  cbn [app annotate_last]. rewrite IH.
  destruct h; reflexivity.
Qed.

Lemma history_charged_after (a : Attempt) :
  history (charged_after a) = history (sent_settings a) ++ history_entry a.
Proof.
  unfold charged_after, history_entry.
  destruct (sent_outcome a) as [?|[]]; cbn; rewrite ?app_nil_r; reflexivity.
Qed.

Lemma history_stopping (a : Attempt) :
  history (fst (stopping a)) = history (charged_after a)
  /\ mode (recorded (sent_outcome a) (fst (stopping a)))
     = mode (fst (stopping a)).
Proof.
  split; [|apply mode_recorded].
  unfold stopping.
  pose proof (relocate_budgets (charged_after a) (sent_request a))
    as (_ & _ & _ & _ & _ & Eh & _).
  destruct (is_exhausted _); [reflexivity|exact Eh].
Qed.

Lemma follows_history self next rand l : forall i settings request final,
  follows self next rand i settings request l final ->
  exists a,
    last l = Some a
    /\ history (fst final)
       = let entries :=
           history settings ++ concat (map history_entry (failures l)) in
         if failing (mode (sent_settings a)) (sent_outcome a)
            && hits_status (sent_outcome a)
         then annotate_last (mode (fst final)) entries
         else entries.
Proof.
  induction l as [|a l IH]; intros i settings request final Hf; [destruct Hf|].
  cbn [follows] in Hf. destruct Hf as (Hs & Hr & _ & Hrest).
  destruct l as [|b l].
  - destruct Hrest as (_ & _ & ->). exists a. split; [reflexivity|].
    cbv zeta. unfold closing. rewrite failures_cons.
    destruct (failing (mode (sent_settings a)) (sent_outcome a)) eqn:Hfail.
    + destruct (history_stopping a) as (Hh & Hm).
      pose proof (history_charged_after a) as Hc.
      cbn [fst andb failures List.filter map concat].
      rewrite app_nil_r, <- Hs, <- Hc, <- Hh.
      destruct (sent_outcome a); reflexivity.
    + cbn [fst andb failures List.filter map concat].
      rewrite app_nil_r, Hs. reflexivity.
  - destruct Hrest as (Hcont & _ & Hf).
    destruct (IH _ _ _ _ Hf) as (final_attempt & Hlast & Hh).
    exists final_attempt. split; [exact Hlast|].
    pose proof (next_settings_fields a Hcont)
      as (_ & _ & _ & _ & _ & _ & Hn & _).
    assert (failing (mode (sent_settings a)) (sent_outcome a) = true) as Hfail.
    { unfold continues in Hcont. rewrite !andb_true_iff in Hcont. tauto. }
    cbv zeta in Hh |- *.
    rewrite (failures_cons a (b :: l)), Hfail.
    cbn [map concat]. rewrite app_assoc, <- Hs, <- Hn. exact Hh.
Qed.

(** ** Exhaustion ends the loop *)

(** [increment] on an attempt, by what the loop does next. *)
Lemma increment_continues (a : Attempt) :
  continues a = true ->
  increment (sent_settings a) (sent_request a)
            (as_response (sent_outcome a)) (as_error (sent_outcome a))
  = (next_settings a, next_request a, true).
Proof.
  unfold continues. rewrite !andb_true_iff, negb_true_iff.
  intros [[_ Hex] Hrew]. rewrite increment_eq. cbv zeta.
  fold (charged_after a). rewrite Hex, Hrew. reflexivity.
Qed.

Lemma increment_stops (a : Attempt) :
  failing (mode (sent_settings a)) (sent_outcome a) = true ->
  continues a = false ->
  increment (sent_settings a) (sent_request a)
            (as_response (sent_outcome a)) (as_error (sent_outcome a))
  = (fst (stopping a), snd (stopping a), false).
Proof.
  unfold continues, stopping. intros ->. cbn [andb].
  rewrite increment_eq. cbv zeta. fold (charged_after a).
  destruct (is_exhausted (charged_after a)); cbn [negb andb fst snd];
    [reflexivity|].
  intros ->. reflexivity.
Qed.

Lemma increment_exhausted settings request response error :
  let after := fst (fst (increment settings request response error)) in
  is_exhausted after = is_exhausted (charge settings request response error).
Proof.
  cbv zeta. rewrite increment_eq. cbv zeta.
  set (charged := charge settings request response error).
  destruct (is_exhausted charged) eqn:Hex; [exact Hex|].
  pose proof (relocate_budgets charged request) as (Et & Ec & Er & Es & _).
  unfold is_exhausted in *.
  destruct (rewinds _ _); cbn [fst total connect read status set_count];
    rewrite Et, Ec, Er, Es; exact Hex.
Qed.

Section Halting.

Context (self : Policy).
Context (next : nat -> HttpRequest -> Outcome).
Context (rand : nat -> Q).

(** C1: in every execution of [send], the attempts are the successive calls
    of the next stage: the first is made on the request given, with the
    settings of [configure_retries]; each attempt has the outcome the next
    stage gives for its request; and an attempt is followed by another one
    exactly with the settings and the request that [increment] leaves when
    it returns [True] on a failure.  An attempt whose increment leaves one
    of the four budgets negative is the last one.  The caller gets what the
    last attempt produced: its transport error raised, [increment] having
    returned [False]; or else its response returned with its status and
    payload, annotated as [send] does, after [increment] returned [False]
    on it if it was retryable, and untouched by [increment] if not. *)
Theorem send_halts_when_exhausted (request : PipelineRequest) :
  let run := send self next rand request in
  let incremented (a : Attempt) :=
    increment (sent_settings a) (sent_request a)
              (as_response (sent_outcome a)) (as_error (sent_outcome a)) in
  (exists first,
      attempts run !! 0%nat = Some first
      /\ sent_settings first = configure_retries self request
      /\ sent_request first = http_request request)
  /\ (forall k a,
        attempts run !! k = Some a ->
        sent_outcome a = next k (sent_request a))
  /\ (forall k a b,
        attempts run !! k = Some a ->
        attempts run !! S k = Some b ->
        failing (mode (sent_settings a)) (sent_outcome a) = true
        /\ incremented a = (sent_settings b, sent_request b, true))
  /\ (forall k a,
        attempts run !! k = Some a ->
        failing (mode (sent_settings a)) (sent_outcome a) = true ->
        (total (fst (fst (incremented a))) < 0
         \/ connect (fst (fst (incremented a))) < 0
         \/ read (fst (fst (incremented a))) < 0
         \/ status (fst (fst (incremented a))) < 0) ->
        S k = length (attempts run))
  /\ (exists final,
        last (attempts run) = Some final
        /\ match sent_outcome final with
           | Failed err =>
               result run = Raised err
               /\ snd (incremented final) = false
           | Responded response =>
               result run = Returned (annotate (final_settings run) response)
               /\ status_code (http_response (annotate (final_settings run) response))
                  = status_code (http_response response)
               /\ payload (http_response (annotate (final_settings run) response))
                  = payload (http_response response)
               /\ (if is_retry response (mode (sent_settings final))
                   then snd (incremented final) = false
                        /\ mode (final_settings run)
                           = mode (fst (fst (incremented final)))
                        /\ final_request run = snd (fst (incremented final))
                   else final_settings run = sent_settings final
                        /\ final_request run = sent_request final)
           end).
Proof.
  cbv zeta.
  pose proof (send_follows self next rand request) as Hf. cbv zeta in Hf.
  unfold send in *.
  destruct (send_loop_shape self next rand
              (S (Z.to_nat (total (configure_retries self request))))
              0 (configure_retries self request) (http_request request))
    as (earlier & final & Heq & _ & _ & Hres); [lia|].
  set (run := send_loop _ _ _ _ _ _ _) in *. clearbody run.
  split; [|split; [|split; [|split]]].
  - destruct (attempts run) as [|first rest]; [destruct Hf|].
    cbn [follows] in Hf. destruct Hf as (Hs & Hr & _).
    exists first. repeat split; assumption.
  - intros k a Ha. exact (follows_outcome _ _ _ _ _ _ _ _ _ _ Hf Ha).
  - intros k a b Ha Hb.
    destruct (follows_step _ _ _ _ _ _ _ _ _ _ _ Hf Ha Hb)
      as (Hcont & _ & -> & ->).
    split; [|apply increment_continues; exact Hcont].
    unfold continues in Hcont. rewrite !andb_true_iff in Hcont. tauto.
  - intros k a Ha _ Hneg.
    apply is_exhausted_spec in Hneg. rewrite increment_exhausted in Hneg.
    destruct (attempts run !! S k) as [b|] eqn:Hb.
    + destruct (follows_step _ _ _ _ _ _ _ _ _ _ _ Hf Ha Hb) as (Hcont & _).
      unfold continues, charged_after in Hcont.
      rewrite Hneg, andb_false_r in Hcont. discriminate.
    + apply lookup_ge_None in Hb. apply lookup_lt_Some in Ha. lia.
  - exists final. assert (last (attempts run) = Some final) as Hlast
      by (rewrite Heq; apply last_snoc).
    split; [exact Hlast|].
    destruct (follows_last _ _ _ _ _ _ _ _ _ Hf Hlast) as (Hstop & _ & Hfinal).
    assert (final_settings run = fst (closing final)
            /\ final_request run = snd (closing final)) as (Hfs & Hfr)
      by (rewrite <- Hfinal; split; reflexivity).
    rewrite Hres. unfold closing in Hfs, Hfr.
    destruct (sent_outcome final) as [response|err] eqn:Ho;
      cbn [conclude failing] in *.
    + split; [reflexivity|]. split; [reflexivity|]. split; [reflexivity|].
      destruct (is_retry response (mode (sent_settings final))) eqn:Hretry.
      * rewrite <- Ho, increment_stops
          by (try exact Hstop; rewrite Ho; exact Hretry).
        cbn [fst snd] in *. rewrite Hfs, Hfr, mode_recorded.
        repeat split.
      * cbn [fst snd] in *. split; assumption.
    + split; [reflexivity|].
      rewrite <- Ho, increment_stops by (try exact Hstop; rewrite Ho; reflexivity).
      reflexivity.
Qed.

End Halting.

Section Runs.

Context (self : Policy).
Context (next : nat -> HttpRequest -> Outcome).
Context (rand : nat -> Q).


(** X2: when [send] ends, [total] has lost one unit for every failed attempt,
    and [connect], [read] and [status] one unit for every failed attempt of
    their class (connect-phase error, response-phase error, retryable
    response): a retryable response costs one unit of [total] and one of
    [status]. *)
Theorem send_budget_accounting (request : PipelineRequest) :
  let run := send self next rand request in
  let settings := configure_retries self request in
  let failed := failures (attempts run) in
  total (final_settings run) = total settings - Z.of_nat (length failed)
  /\ connect (final_settings run)
     = connect settings - tally hits_connect failed
  /\ read (final_settings run) = read settings - tally hits_read failed
  /\ status (final_settings run) = status settings - tally hits_status failed.
Proof.
  cbv zeta.
  destruct (follows_budgets _ _ _ _ _ _ _ _ (send_follows self next rand request))
    as (Ht & Hc & Hr & Hs).
  cbn [fst] in *. auto.
Qed.

(** X3: the history that [send] ends with lists, oldest first, one entry for
    every failed attempt that was a connect-phase error, a response-phase
    error or a retryable response, the last attempt included when it
    failed; each entry holds the request as it was sent.  An entry holds
    the response object itself: when the run ends on a retryable response,
    that response is the last entry as well as the value returned, so that
    the entry shows the location mode [send] assigns, like the response
    returned; every other entry reads as it was recorded.  A response that
    is returned carries this history when it is not empty, and otherwise
    keeps the history slot of its context as the next stage left it. *)
Theorem send_history (request : PipelineRequest) :
  let run := send self next rand request in
  let entries := concat (map history_entry (failures (attempts run))) in
  exists final,
    last (attempts run) = Some final
    /\ history (final_settings run)
       = (if failing (mode (sent_settings final)) (sent_outcome final)
             && hits_status (sent_outcome final)
          then annotate_last (mode (final_settings run)) entries
          else entries)
    /\ (forall response,
          result run = Returned response ->
          exists raw,
            sent_outcome final = Responded raw
            /\ context_history response
               = match history (final_settings run) with
                 | [] => context_history raw
                 | _ :: _ => Some (history (final_settings run))
                 end
            /\ (failing (mode (sent_settings final)) (sent_outcome final) = true ->
                last (history (final_settings run))
                = Some (mkRequestHistory (sent_request final)
                          (Some (http_response response)) None))).
Proof.
  cbv zeta.
  destruct (follows_history _ _ _ _ _ _ _ _ (send_follows self next rand request))
    as (final & Hlast & Hh).
  cbn [fst] in Hh. cbn [configure_retries history app] in Hh.
  exists final. split; [exact Hlast|]. split; [exact Hh|].
  intros response Hres.
  unfold send in *.
  destruct (send_loop_shape self next rand
              (S (Z.to_nat (total (configure_retries self request))))
              0 (configure_retries self request) (http_request request))
    as (earlier & final' & Heq & _ & _ & Hconc); [lia|].
  set (run := send_loop _ _ _ _ _ _ _) in *. clearbody run.
  assert (final' = final) as ->
    by (rewrite Heq, last_snoc in Hlast; congruence).
  rewrite Hres in Hconc. destruct (sent_outcome final) as [raw|err] eqn:Ho;
    [|discriminate].
  exists raw. split; [reflexivity|].
  cbn [conclude] in Hconc. injection Hconc as ->.
  split; [reflexivity|].
  intros Hfail. rewrite Hh, Hfail. cbn [andb hits_status].
  rewrite Heq. unfold failures. rewrite List.filter_app. cbn [List.filter].
  rewrite Ho, Hfail, map_app, concat_app. cbn [map concat].
  unfold history_entry at 2. rewrite Ho, app_nil_r, annotate_last_snoc.
  rewrite last_snoc. reflexivity.
Qed.

End Runs.

(** ** Retries, one after the other *)

Section Retries.

Context (self : Policy).
Context (next : nat -> HttpRequest -> Outcome).
Context (rand : nat -> Q).

(** X4: [count] numbers the attempts: the attempt with index [k] (from 0) is
    made with [count] equal to [k], and the hook, when one is set, is called
    before the attempt that follows with [retry_count] equal to [k] and the
    location mode that attempt is made in. *)
Theorem retry_count_numbers_attempts (request : PipelineRequest) :
  let run := send self next rand request in
  forall k a,
    attempts run !! k = Some a ->
    count (sent_settings a) = Z.of_nat k
    /\ forall b,
         attempts run !! S k = Some b ->
         exists retry,
           sent_retry a = Some retry
           /\ hook_call retry
              = if opt_retry_hook (options request)
                then Some (Z.of_nat k, mode (sent_settings b))
                else None.
Proof.
  cbv zeta. intros k a Ha.
  pose proof (send_follows self next rand request) as Hf. cbv zeta in Hf.
  assert (count (sent_settings a) = Z.of_nat k
          /\ hook (sent_settings a) = opt_retry_hook (options request))
    as (Hcount & Hhook).
  { apply (follows_invariant self next rand
             (fun i settings _ =>
                count settings = Z.of_nat i
                /\ hook settings = opt_retry_hook (options request))
             ltac:(intros i c (Hc & Hh) Hcont;
                   apply next_settings_fields in Hcont
                     as (_ & _ & _ & _ & _ & Hn & _ & Hk & _);
                   rewrite Hn, Hk, Hc, Hh; split; [lia|reflexivity])
             _ _ _ _ _ Hf ltac:(split; reflexivity) k a Ha). }
  split; [exact Hcount|].
  intros b Hb.
  destruct (follows_step _ _ _ _ _ _ _ _ _ _ _ Hf Ha Hb)
    as (Hcont & Hretry & Hsb & _).
  eexists. split; [exact Hretry|].
  cbn [hook_call]. unfold retry_hook.
  apply next_settings_fields in Hcont as (_ & _ & _ & _ & _ & Hn & _ & Hk & _).
  rewrite Hk, Hhook, Hsb, Hn, Hcount.
  destruct (opt_retry_hook (options request)); [|reflexivity].
  f_equal. f_equal. lia.
Qed.

(** X5: [send] gives up for one of three reasons only.  After its last
    attempt, either the attempt did not fail (a response that [is_retry]
    rejects), or its charge left one of the four budgets negative, or the
    body is a stream that cannot be rewound. *)
Theorem send_stops_for_a_reason (request : PipelineRequest) :
  let run := send self next rand request in
  exists final,
    last (attempts run) = Some final
    /\ (failing (mode (sent_settings final)) (sent_outcome final) = false
        \/ (total (charged_after final) < 0
            \/ connect (charged_after final) < 0
            \/ read (charged_after final) < 0
            \/ status (charged_after final) < 0)
        \/ (has_read (body (http_request request)) = true
            /\ rewinds (body_position (configure_retries self request))
                       (body (http_request request)) = false)).
Proof.
  cbv zeta.
  pose proof (send_follows self next rand request) as Hf. cbv zeta in Hf.
  destruct (last (attempts (send self next rand request))) as [final|] eqn:Hl.
  - exists final. split; [reflexivity|].
    destruct (follows_last _ _ _ _ _ _ _ _ _ Hf Hl) as (Hstop & _ & _).
    apply last_Some in Hl as (earlier & Heq).
    assert (attempts (send self next rand request) !! length earlier
            = Some final) as Hk
      by (rewrite Heq, lookup_app_r, Nat.sub_diag by lia; reflexivity).
    assert (body (sent_request final) = body (http_request request)
            /\ body_position (sent_settings final)
               = body_position (configure_retries self request))
      as (Hbody & Hpos).
    { apply (follows_invariant self next rand
               (fun _ settings request' =>
                  body request' = body (http_request request)
                  /\ body_position settings
                     = body_position (configure_retries self request))
               ltac:(intros i c (Hb & Hp) Hcont;
                     apply next_settings_fields in Hcont
                       as (_ & _ & _ & _ & _ & _ & _ & _ & _ & _ & Hn);
                     destruct (next_request_fields c) as (_ & Hnb);
                     rewrite Hn, Hnb, Hb, Hp; split; reflexivity)
               _ _ _ _ _ Hf ltac:(split; reflexivity) _ _ Hk). }
    unfold continues in Hstop.
    destruct (failing _ _); [|left; reflexivity]. right.
    destruct (is_exhausted (charged_after final)) eqn:Hex;
      [left; apply is_exhausted_spec; exact Hex|right].
    cbn [andb negb] in Hstop. unfold charged_after in Hstop.
    rewrite body_position_charge, Hbody, Hpos in Hstop.
    split; [|exact Hstop].
    destruct (body (http_request request)); cbn in *; congruence.
  - apply last_None in Hl. rewrite Hl in Hf. destruct Hf.
Qed.

End Retries.

(** ** Where the requests of a run go *)

Lemma charged_after_frame (a : Attempt) :
  mode (charged_after a) = mode (sent_settings a)
  /\ hosts (charged_after a) = hosts (sent_settings a)
  /\ retry_secondary (charged_after a) = retry_secondary (sent_settings a).
Proof.
  unfold charged_after.
  rewrite mode_charge, hosts_charge, retry_secondary_charge. tauto.
Qed.

Lemma fails_over_charged (a : Attempt) :
  fails_over (charged_after a) (sent_request a)
  = fails_over (sent_settings a) (sent_request a).
Proof.
  unfold fails_over. destruct (charged_after_frame a) as (_ & -> & ->).
  reflexivity.
Qed.

Section Locations.

Context (self : Policy).
Context (next : nat -> HttpRequest -> Outcome).
Context (rand : nat -> Q).

Lemma follows_stays l : forall i settings request final,
  follows self next rand i settings request l final ->
  fails_over settings request = false ->
  Forall (fun a => mode (sent_settings a) = mode settings
                   /\ sent_request a = request) l
  /\ mode (fst final) = mode settings /\ snd final = request.
Proof.
  induction l as [|a l IH]; intros i settings request final Hf Hno;
    [destruct Hf|].
  cbn [follows] in Hf. destruct Hf as (Hs & Hr & _ & Hrest).
  assert (relocate (charged_after a) (sent_request a)
          = (charged_after a, sent_request a)) as Hrel
    by (apply relocate_stays; rewrite fails_over_charged, Hs, Hr; exact Hno).
  destruct (charged_after_frame a) as (Hm & Hh & Hrs).
  destruct l as [|b l].
  - destruct Hrest as (_ & _ & ->). unfold closing, stopping. rewrite Hrel.
    split; [repeat constructor; congruence|].
    destruct (failing _ _); [destruct (is_exhausted _)|]; cbn [fst snd];
      rewrite ?mode_recorded; split; congruence.
  - destruct Hrest as (_ & _ & Hf).
    assert (mode (next_settings a) = mode settings) as Hmode
      by (unfold next_settings; rewrite Hrel; cbn; congruence).
    assert (next_request a = request) as Hreq
      by (unfold next_request; rewrite Hrel; cbn; congruence).
    destruct (IH _ _ _ _ Hf) as (Hall & Hfm & Hfr).
    { unfold fails_over in *. unfold next_settings. rewrite Hrel. cbn [fst].
      rewrite Hreq. cbn [retry_secondary hosts set_count].
      rewrite Hh, Hrs, Hs. exact Hno. }
    rewrite Hmode, Hreq in *. split; [|split; assumption].
    constructor; [split; congruence|exact Hall].
Qed.

(** X6: with [retry_secondary] off, or with a [hosts] dictionary that is
    missing, empty or holds an empty hostname, [send] never leaves the
    location it started with: every attempt is made in the initial mode on
    the unchanged request, and a response that is returned is annotated with
    the initial mode. *)
Theorem send_stays_without_failover (request : PipelineRequest) :
  let run := send self next rand request in
  let settings := configure_retries self request in
  retry_secondary settings = false \/ hosts_usable (hosts settings) = false ->
  Forall (fun a => mode (sent_settings a) = mode settings
                   /\ sent_request a = http_request request) (attempts run)
  /\ final_request run = http_request request
  /\ forall response,
       result run = Returned response ->
       location_mode (http_response response) = Some (mode settings).
Proof.
  cbv zeta. intros Hoff.
  destruct (follows_stays _ _ _ _ _ (send_follows self next rand request))
    as (Hall & Hmode & Hreq).
  { apply fails_over_false. tauto. }
  cbn [fst snd] in *. split; [exact Hall|]. split; [exact Hreq|].
  intros response Hres. unfold send in *.
  destruct (send_loop_shape self next rand
              (S (Z.to_nat (total (configure_retries self request))))
              0 (configure_retries self request) (http_request request))
    as (earlier & final & _ & _ & _ & Hconc); [lia|].
  set (run := send_loop _ _ _ _ _ _ _) in *. clearbody run.
  rewrite Hres in Hconc. destruct (sent_outcome final); [|discriminate].
  cbn [conclude] in Hconc. injection Hconc as ->.
  cbn [annotate http_response location_mode]. rewrite Hmode. reflexivity.
Qed.

(** X7: when failover applies (the method is not PUT, [retry_secondary] is
    set, and [hosts] passes the test of [_set_next_host_location]), the
    location mode alternates from one attempt to the next, starting from the
    initial mode, and every attempt after the first is sent to the hostname
    that [hosts] gives for its mode. *)
Theorem send_alternates_locations (request : PipelineRequest) :
  let run := send self next rand request in
  let settings := configure_retries self request in
  method (http_request request) <> "PUT"%string ->
  retry_secondary settings = true ->
  hosts_usable (hosts settings) = true ->
  forall k a,
    attempts run !! k = Some a ->
    mode (sent_settings a)
    = (if Nat.even k then mode settings else alternate (mode settings))
    /\ ((0 < k)%nat ->
        netloc (url (sent_request a))
        = host_of (hosts settings) (mode (sent_settings a))).
Proof.
  cbv zeta. intros Hput Hsec Husable k a Ha.
  pose proof (send_follows self next rand request) as Hf. cbv zeta in Hf.
  set (settings0 := configure_retries self request) in *.
  pose proof (follows_invariant self next rand
    (fun i settings request' =>
       mode settings = (if Nat.even i then mode settings0
                        else alternate (mode settings0))
       /\ ((0 < i)%nat -> netloc (url request')
                          = host_of (hosts settings0) (mode settings))
       /\ method request' = method (http_request request)
       /\ retry_secondary settings = true
       /\ hosts settings = hosts settings0)) as Hinv.
  cbv beta in Hinv.
  destruct (Hinv ltac:(
    intros i c (Hm & _ & Hmeth & Hrs & Hh) Hcont;
    assert (fails_over (charged_after c) (sent_request c) = true) as Hfo
      by (rewrite fails_over_charged; apply fails_over_true;
          rewrite Hmeth, Hrs, Hh; auto);
    destruct (charged_after_frame c) as (Cm & Ch & Crs);
    unfold next_settings, next_request, relocate; rewrite Hfo;
    cbn [fst snd mode set_mode set_count url netloc replace_netloc method
         retry_secondary hosts];
    rewrite Cm, Ch, Crs, Hm, Hh, Nat.even_succ, <- Nat.negb_even;
    destruct (Nat.even i), (mode settings0); cbn; auto)
    _ _ _ _ _ Hf
    ltac:(subst settings0; repeat split; [lia|exact Hsec]) k a Ha)
    as (Hm & Hn & _).
  cbn [Nat.add] in Hm, Hn. split; assumption.
Qed.

(** X8: the policy never touches the method or the body of a request: every
    attempt, and the request [send] leaves behind, has the method and the
    body of the request [send] was given.  (What it rewrites is the URL,
    each time from the parse of the URL as it stands then.) *)
Theorem send_keeps_method_and_body (request : PipelineRequest) :
  let run := send self next rand request in
  let same (request' : HttpRequest) :=
    method request' = method (http_request request)
    /\ body request' = body (http_request request) in
  Forall (fun a => same (sent_request a)) (attempts run)
  /\ same (final_request run).
Proof.
  cbv zeta.
  pose proof (send_follows self next rand request) as Hf. cbv zeta in Hf.
  pose proof (follows_invariant self next rand
    (fun _ _ request' =>
       method request' = method (http_request request)
       /\ body request' = body (http_request request))
    ltac:(intros i c H _;
          destruct (next_request_fields c) as (-> & ->);
          exact H)
    _ _ _ _ _ Hf ltac:(repeat split)) as Hinv.
  cbv beta in Hinv. split.
  - apply Forall_lookup. intros k a Ha. exact (Hinv k a Ha).
  - destruct (last (attempts (send self next rand request))) as [final|] eqn:Hl.
    + destruct (follows_last _ _ _ _ _ _ _ _ _ Hf Hl) as (_ & _ & Hfinal).
      apply last_Some in Hl as (earlier & Heq).
      assert (attempts (send self next rand request) !! length earlier
              = Some final) as Hk
        by (rewrite Heq, lookup_app_r, Nat.sub_diag by lia; reflexivity).
      specialize (Hinv _ _ Hk).
      assert (final_request (send self next rand request)
              = snd (closing final)) as -> by (rewrite <- Hfinal; reflexivity).
      unfold closing, stopping.
      destruct (failing _ _); [destruct (is_exhausted _)|]; cbn [snd];
        try exact Hinv.
      fold (next_request final).
      destruct (next_request_fields final) as (-> & ->).
      exact Hinv.
    + apply last_None in Hl. rewrite Hl in Hf. destruct Hf.
Qed.

End Locations.

(** Three retryable answers on a GET with failover, then success. *)
Lemma retry_count_numbers_attempts_witness :
  let request :=
    request_of "GET" NoBody
      (mkOptions None None None None (Some true) None (Some both_hosts) true) in
  let run := send TablesRetryPolicy_default
               (scripted [answer 500; answer 503; answer 408] (answer 200))
               midpoint request in
  exists a retry,
    attempts run !! 2%nat = Some a
    /\ count (sent_settings a) = 2
    /\ sent_retry a = Some retry
    /\ hook_call retry = Some (2, SECONDARY).
Proof.
  cbv zeta.
  set (request := request_of "GET" NoBody
         (mkOptions None None None None (Some true) None (Some both_hosts) true)).
  set (pipeline := scripted [answer 500; answer 503; answer 408] (answer 200)).
  destruct (attempts (send TablesRetryPolicy_default pipeline midpoint request)
              !! 2%nat) as [a|] eqn:Ha; [|vm_compute in Ha; discriminate].
  destruct (attempts (send TablesRetryPolicy_default pipeline midpoint request)
              !! 3%nat) as [b|] eqn:Hb; [|vm_compute in Hb; discriminate].
  destruct (retry_count_numbers_attempts TablesRetryPolicy_default pipeline
              midpoint request 2%nat a Ha) as (Hcount & Hnext).
  destruct (Hnext b Hb) as (retry & Hretry & Hcall).
  exists a, retry. repeat split; try assumption.
  rewrite Hcall. vm_compute in Hb. injection Hb as <-. reflexivity.
Defined.

(** Retryable answers with [retry_to_secondary] left off. *)
Lemma send_stays_without_failover_witness :
  let request := request_of "GET" NoBody no_options in
  let run := send TablesRetryPolicy_default
               (scripted [answer 500; answer 503] (answer 200))
               midpoint request in
  Forall (fun a => mode (sent_settings a) = PRIMARY
                   /\ sent_request a = http_request request) (attempts run)
  /\ final_request run = http_request request
  /\ forall response,
       result run = Returned response ->
       location_mode (http_response response) = Some PRIMARY.
Proof.
  cbv zeta.
  apply (send_stays_without_failover TablesRetryPolicy_default
           (scripted [answer 500; answer 503] (answer 200)) midpoint
           (request_of "GET" NoBody no_options)).
  left. reflexivity.
Defined.

(** The third attempt of a GET with failover is back on the primary host. *)
Lemma send_alternates_locations_witness :
  let request := request_of "GET" NoBody with_failover in
  let run := send TablesRetryPolicy_default
               (scripted [answer 500; answer 503] (answer 200))
               midpoint request in
  exists a,
    attempts run !! 2%nat = Some a
    /\ mode (sent_settings a) = PRIMARY
    /\ netloc (url (sent_request a)) = "account.table.core.windows.net"%string.
Proof.
  cbv zeta.
  set (request := request_of "GET" NoBody with_failover).
  set (pipeline := scripted [answer 500; answer 503] (answer 200)).
  destruct (attempts (send TablesRetryPolicy_default pipeline midpoint request)
              !! 2%nat) as [a|] eqn:Ha; [|vm_compute in Ha; discriminate].
  destruct (send_alternates_locations TablesRetryPolicy_default pipeline
              midpoint request ltac:(discriminate) eq_refl eq_refl 2%nat a Ha)
    as (Hmode & Hnet).
  exists a. split; [reflexivity|]. split; [exact Hmode|].
  rewrite (Hnet ltac:(lia)), Hmode. reflexivity.
Defined.

(** ** Sleeping between attempts *)

Lemma sleep_positive self settings u d :
  sleep self settings u = Some d -> (0 < d)%Q.
Proof.
  unfold sleep.
  destruct (Qeq_bool _ 0) eqn:Hz; [discriminate|]. cbn [orb].
  destruct (Qle_bool 0 _) eqn:Hle; [|discriminate]. cbn [negb].
  intros [= <-]. apply Qeq_bool_neq in Hz. apply Qle_bool_iff in Hle.
  apply Qle_lteq in Hle as [Hlt|Heq]; [exact Hlt|].
  destruct Hz. symmetry. exact Heq.
Qed.

Lemma follows_retries self next rand l : forall i settings request final,
  follows self next rand i settings request l final ->
  Forall (fun a => sent_retry a = None
                   \/ exists u, sent_retry a
                                = Some (mkRetry (retry_hook (next_settings a))
                                          (sleep self (next_settings a) u))) l.
Proof.
  induction l as [|a l IH]; intros i settings request final Hf; [destruct Hf|].
  cbn [follows] in Hf. destruct Hf as (_ & _ & _ & Hrest).
  destruct l as [|b l].
  - destruct Hrest as (_ & Hnone & _). repeat constructor. exact Hnone.
  - destruct Hrest as (_ & Hretry & Hf). constructor; [|exact (IH _ _ _ _ Hf)].
    right. eexists. exact Hretry.
Qed.

(** X9: [send] never asks the transport to sleep for a zero or negative
    time, and it does not sleep after its last attempt. *)
Theorem send_sleeps_positive (self : Policy)
    (next : nat -> HttpRequest -> Outcome) (rand : nat -> Q)
    (request : PipelineRequest) :
  let run := send self next rand request in
  Forall (fun a => forall retry d,
            sent_retry a = Some retry -> slept retry = Some d -> (0 < d)%Q)
         (attempts run)
  /\ exists final, last (attempts run) = Some final /\ sent_retry final = None.
Proof.
  cbv zeta.
  pose proof (send_follows self next rand request) as Hf. cbv zeta in Hf.
  split.
  - eapply Forall_impl; [exact (follows_retries _ _ _ _ _ _ _ _ Hf)|].
    cbv beta. intros a [Hnone|(u & Hsome)] retry d Hretry Hslept;
      [congruence|].
    rewrite Hsome in Hretry. injection Hretry as <-. cbn in Hslept.
    exact (sleep_positive _ _ _ _ Hslept).
  - destruct (last (attempts (send self next rand request))) as [final|] eqn:Hl.
    + exists final. split; [reflexivity|].
      exact (proj1 (proj2 (follows_last _ _ _ _ _ _ _ _ _ Hf Hl))).
    + apply last_None in Hl. rewrite Hl in Hf. destruct Hf.
Qed.

(** ** More on the backoff *)

(** X10: the backoff of [LinearRetry] does not depend on the retry count: it
    is the uniform draw between [backoff] minus the jitter, not below 0, and
    [backoff] plus the jitter, and lies between the two when neither is
    negative. *)
Theorem linear_backoff_time (self : Policy) (settings settings' : Settings)
    (u : Q) :
  retry_class self = LinearRetry ->
  (0 <= u <= 1)%Q ->
  let jitter := random_jitter_range self in
  let low := Z.max 0 (backoff self - jitter) in
  let high := backoff self + jitter in
  let time := get_backoff_time self settings u in
  time = get_backoff_time self settings' u
  /\ (time == inject_Z low + (inject_Z high - inject_Z low) * u)%Q
  /\ (0 <= jitter -> 0 <= backoff self ->
      (inject_Z low <= time <= inject_Z high)%Q).
Proof.
  intros Hclass Hu. cbv zeta.
  unfold get_backoff_time, LinearRetry_get_backoff_time, random_range_end.
  rewrite Hclass, random_range_start_max.
  split; [reflexivity|]. split; [reflexivity|].
  intros Hj Hb. apply uniform_within; [lia|exact Hu].
Qed.

Lemma linear_backoff_time_witness :
  (inject_Z 12
   <= get_backoff_time (mkPolicy LinearRetry 15 3 15 3 3 3 3 3 false)
        (first_settings (request_of "GET" NoBody no_options)) (1 # 2)
   <= inject_Z 18)%Q.
Proof.
  destruct (linear_backoff_time (mkPolicy LinearRetry 15 3 15 3 3 3 3 3 false)
              (first_settings (request_of "GET" NoBody no_options))
              (first_settings (request_of "GET" NoBody no_options))
              (1 # 2)%Q eq_refl) as (_ & _ & Hbounds).
  - split; discriminate.
  - apply Hbounds; discriminate.
Defined.

Lemma exponential_backoff_mono self settings settings' :
  0 <= increment_base self ->
  0 <= count settings <= count settings' ->
  exponential_backoff self settings <= exponential_backoff self settings'.
Proof.
  intros Hbase [Hc Hcc]. unfold exponential_backoff.
  destruct (Z.eqb_spec (count settings) 0) as [H0|H0],
           (Z.eqb_spec (count settings') 0) as [H0'|H0'];
    try (assert (0 <= increment_base self ^ count settings')
           by (apply Z.pow_nonneg; exact Hbase)); try lia.
  assert (increment_base self ^ count settings
          <= increment_base self ^ count settings'); [|lia].
  destruct (Z.eq_dec (increment_base self) 0) as [->|Hne].
  - rewrite !Z.pow_0_l by lia. lia.
  - apply Z.pow_le_mono_r; lia.
Qed.

(** X11: for the exponential policies with a non-negative [increment_base],
    the backoff never shrinks as the retry count grows: with the same
    variate, a later retry waits at least as long as an earlier one. *)
Theorem exponential_backoff_grows (self : Policy)
    (settings settings' : Settings) (u : Q) :
  retry_class self <> LinearRetry ->
  0 <= increment_base self ->
  0 <= count settings <= count settings' ->
  (0 <= u <= 1)%Q ->
  (get_backoff_time self settings u <= get_backoff_time self settings' u)%Q.
Proof.
  intros Hclass Hbase Hcount Hu.
  pose proof (exponential_backoff_mono self settings settings' Hbase Hcount)
    as Hmono.
  assert (forall s, get_backoff_time self s u
                    = uniform (Z.max 0 (exponential_backoff self s
                                        - random_jitter_range self))
                              (exponential_backoff self s
                               + random_jitter_range self) u) as Heq.
  { intros s.
    unfold get_backoff_time, TablesRetryPolicy_get_backoff_time,
      ExponentialRetry_get_backoff_time, random_range_end.
    rewrite random_range_start_max.
    destruct (retry_class self); [reflexivity|reflexivity|contradiction]. }
  rewrite !Heq. unfold uniform.
  set (b := exponential_backoff self settings) in *.
  set (b' := exponential_backoff self settings') in *.
  set (j := random_jitter_range self).
  assert (Z.max 0 (b - j) <= Z.max 0 (b' - j)) as Hlow by lia.
  assert (b + j <= b' + j) as Hhigh by lia.
  rewrite Zle_Qle in Hlow, Hhigh.
  set (l := inject_Z (Z.max 0 (b - j))) in *.
  set (l' := inject_Z (Z.max 0 (b' - j))) in *.
  set (h := inject_Z (b + j)) in *. set (h' := inject_Z (b' + j)) in *.
  nra.
Qed.

Lemma exponential_backoff_grows_witness :
  (get_backoff_time (mkPolicy ExponentialRetry 15 3 0 3 3 3 3 3 false)
     (set_count 1 (first_settings (request_of "GET" NoBody no_options)))
     (1 # 2)
   <= get_backoff_time (mkPolicy ExponentialRetry 15 3 0 3 3 3 3 3 false)
        (set_count 2 (first_settings (request_of "GET" NoBody no_options)))
        (1 # 2))%Q.
Proof.
  apply exponential_backoff_grows.
  - discriminate.
  - discriminate.
  - cbn. lia.
  - split; discriminate.
Defined.

(** ** Exhaustion, once more *)

(** X12: [is_exhausted] holds exactly when one of the four budgets is
    negative; a budget at 0, which [filter(None, ...)] drops, does not count
    as exhausted, and with all four at 0 the answer is [False]. *)
Theorem exhausted_iff_negative_budget (settings : Settings) :
  (is_exhausted settings = true <->
   total settings < 0 \/ connect settings < 0
   \/ read settings < 0 \/ status settings < 0)
  /\ (total settings = 0 /\ connect settings = 0
      /\ read settings = 0 /\ status settings = 0 ->
      is_exhausted settings = false).
Proof.
  split; [apply is_exhausted_spec|].
  intros (Ht & Hc & Hr & Hs). apply not_exhausted_spec. lia.
Qed.

(** * The policy that chooses the host *)

Lemma detect_location_spec (location : string) (items : HostItems) :
  forall start,
    let found :=
      fold_left
        (fun location_mode entry =>
           if bool_decide (snd entry = Some location) then fst entry
           else location_mode)
        items start in
    (found = start /\ forall entry, entry ∈ items -> snd entry <> Some location)
    \/ (found, Some location) ∈ items.
Proof.
  induction items as [|[key value] items IH]; intros start; cbv zeta.
  - left. split; [reflexivity|]. intros entry Hin. inversion Hin.
  - cbn [fold_left fst snd].
    destruct (IH (if bool_decide (value = Some location) then key else start))
      as [(Heq & Hnone)|Hin].
    + cbv zeta in Heq. rewrite Heq. case_bool_decide as Hv.
      * right. subst value. left.
      * left. split; [reflexivity|]. intros entry Hin.
        apply elem_of_cons in Hin as [->|Hin]; [exact Hv|exact (Hnone _ Hin)].
    + right. right. exact Hin.
Qed.

Lemma as_hosts_lookup (items : HostItems) key value :
  NoDup (fst <$> items) -> (key, value) ∈ items ->
  as_hosts items !! key = Some value.
Proof. intros Hnd Hin. apply elem_of_list_to_map; assumption. Qed.

(** X13: [StorageHosts.on_request] raises in two cases only: with
    [AttributeError] when the policy has no [hosts] dictionary, and with
    [ValueError] when [use_location] names a location that [hosts] does not
    have.  In both cases the request itself is left as it was, but the
    options have been written to: [hosts] is set, and on the second path
    [retry_to_secondary] is already switched off. *)
Theorem hosts_on_request_raises (self_hosts : option HostItems)
    (use_location : option LocationMode) (request : PipelineRequest) :
  let outcome := StorageHosts_on_request self_hosts use_location request in
  (fst outcome = Some AttributeError <-> self_hosts = None)
  /\ (fst outcome = Some ValueError <->
      exists items location,
        self_hosts = Some items /\ use_location = Some location
        /\ as_hosts items !! location = None)
  /\ (forall key, fst outcome <> Some (KeyError key))
  /\ (fst outcome <> None ->
      http_request (snd outcome) = http_request request
      /\ opt_hosts (options (snd outcome)) = as_hosts <$> self_hosts
      /\ opt_location_mode (options (snd outcome))
         = opt_location_mode (options request))
  /\ (fst outcome = Some ValueError ->
      opt_retry_to_secondary (options (snd outcome)) = Some false).
Proof.
  cbv zeta. unfold StorageHosts_on_request.
  destruct self_hosts as [items|]; cbn [fmap option_fmap option_map].
  - destruct use_location as [location|].
    + destruct (as_hosts items !! location) as [name|] eqn:Hlook.
      * rewrite bool_decide_eq_true_2 by (eexists; reflexivity). cbn [negb].
        destruct (negb (bool_decide (location = _))); cbn [fst snd];
          (repeat split; try discriminate; try congruence);
          intros (items' & location' & [= <-] & [= <-] & Hnone); congruence.
      * rewrite bool_decide_eq_false_2 by (intros [? ?]; discriminate).
        cbn [negb fst snd]. repeat split; try discriminate; try congruence.
        intros _. exists items, location. auto.
    + cbn [fst snd]. repeat split; try discriminate; try congruence.
      intros (items' & location' & _ & Hnone & _). discriminate.
  - cbn [fst snd]. repeat split; try discriminate; try congruence.
    intros (items' & location' & Hnone & _). discriminate.
Qed.

(** X14: when [use_location] names a location that [hosts] has,
    [on_request] raises nothing and pins the request to it: the options say
    [location_mode = use_location] and [retry_to_secondary = False], and the
    URL points at the hostname of that location, with one exception: a
    request for [PRIMARY] whose URL names none of the configured hosts keeps
    its URL.  Nothing else of the request changes. *)
Theorem use_location_pins_request (items : HostItems) (location : LocationMode)
    (request : PipelineRequest) :
  NoDup (fst <$> items) ->
  is_Some (as_hosts items !! location) ->
  let outcome := StorageHosts_on_request (Some items) (Some location) request in
  let before := http_request request in
  let after := http_request (snd outcome) in
  fst outcome = None
  /\ opt_location_mode (options (snd outcome)) = Some location
  /\ opt_retry_to_secondary (options (snd outcome)) = Some false
  /\ opt_hosts (options (snd outcome)) = Some (as_hosts items)
  /\ (netloc (url after) = host_of (Some (as_hosts items)) location
      \/ (location = PRIMARY /\ after = before
          /\ forall entry, entry ∈ items ->
                           snd entry <> Some (netloc (url before))))
  /\ method after = method before /\ body after = body before
  /\ scheme (url after) = scheme (url before)
  /\ path (url after) = path (url before)
  /\ params (url after) = params (url before)
  /\ query (url after) = query (url before)
  /\ fragment (url after) = fragment (url before).
Proof.
  intros Hnd Hkey. cbv zeta. unfold StorageHosts_on_request.
  cbn [fmap option_fmap option_map].
  rewrite bool_decide_eq_true_2 by exact Hkey. cbn [negb].
  case_bool_decide as Hsame; cbn [negb fst snd options http_request
    set_opt_location_mode set_opt_retry_to_secondary set_opt_hosts
    opt_location_mode opt_retry_to_secondary opt_hosts url method body
    replace_netloc netloc scheme path params query fragment].
  - repeat split; try (rewrite <- Hsame; reflexivity).
    destruct (detect_location_spec (netloc (url (http_request request)))
                items PRIMARY) as [(Hdef & Hnone)|Hin].
    + right. unfold detect_location in Hsame. cbv zeta in Hdef.
      rewrite Hdef in Hsame. auto.
    + left. fold (detect_location (netloc (url (http_request request))) items)
        in Hin. rewrite <- Hsame in Hin.
      unfold host_of. rewrite (as_hosts_lookup _ _ _ Hnd Hin). reflexivity.
  - repeat split. left. reflexivity.
Qed.

Lemma two_hosts_distinct : NoDup (fst <$> two_hosts).
Proof. apply (bool_decide_unpack _). vm_compute. exact I. Defined.

Lemma use_location_pins_request_witness :
  let outcome := StorageHosts_on_request (Some two_hosts) (Some SECONDARY)
                   (request_of "GET" NoBody no_options) in
  fst outcome = None
  /\ opt_location_mode (options (snd outcome)) = Some SECONDARY
  /\ netloc (url (http_request (snd outcome)))
     = "account-secondary.table.core.windows.net"%string.
Proof.
  cbv zeta.
  destruct (use_location_pins_request two_hosts SECONDARY
              (request_of "GET" NoBody no_options) two_hosts_distinct)
    as (Hnone & Hmode & _ & _ & Hnet & _).
  - eexists. vm_compute. reflexivity.
  - split; [exact Hnone|]. split; [exact Hmode|].
    destruct Hnet as [->|(Hp & _)]; [vm_compute; reflexivity|discriminate Hp].
Defined.

(** A run that cannot fail over stays where it started. *)
Lemma send_fixed self next rand (request : PipelineRequest) :
  let run := send self next rand request in
  let settings := configure_retries self request in
  fails_over settings (http_request request) = false ->
  Forall (fun a => mode (sent_settings a) = mode settings
                   /\ sent_request a = http_request request) (attempts run)
  /\ forall response,
       result run = Returned response ->
       location_mode (http_response response) = Some (mode settings).
Proof.
  cbv zeta. intros Hoff.
  destruct (follows_stays _ _ _ _ _ _ _ _
              (send_follows self next rand request) Hoff)
    as (Hall & Hmode & _).
  cbn [fst] in Hmode. split; [exact Hall|].
  intros response Hres. unfold send in *.
  destruct (send_loop_shape self next rand
              (S (Z.to_nat (total (configure_retries self request))))
              0 (configure_retries self request) (http_request request))
    as (earlier & final & _ & _ & _ & Hconc); [lia|].
  set (run := send_loop _ _ _ _ _ _ _) in *. clearbody run.
  rewrite Hres in Hconc. destruct (sent_outcome final); [|discriminate].
  cbn [conclude] in Hconc. injection Hconc as ->.
  cbn [annotate http_response location_mode]. rewrite Hmode. reflexivity.
Qed.

(** X15: a request that [StorageHosts.on_request] has pinned with
    [use_location] is never moved by the retry policy: whatever its method
    and whatever [retry_to_secondary] said before, every attempt of [send]
    is made in that location mode on the request as pinned, and a response
    that is returned is annotated with that mode. *)
Theorem pinned_request_keeps_its_location (self : Policy)
    (next : nat -> HttpRequest -> Outcome) (rand : nat -> Q)
    (items : HostItems) (location : LocationMode) (request : PipelineRequest) :
  is_Some (as_hosts items !! location) ->
  let pinned :=
    snd (StorageHosts_on_request (Some items) (Some location) request) in
  let run := send self next rand pinned in
  Forall (fun a => mode (sent_settings a) = location
                   /\ sent_request a = http_request pinned) (attempts run)
  /\ forall response,
       result run = Returned response ->
       location_mode (http_response response) = Some location.
Proof.
  intros Hkey. cbv zeta.
  set (pinned := snd (StorageHosts_on_request (Some items) (Some location)
                        request)).
  assert (retry_secondary (configure_retries self pinned) = false
          /\ mode (configure_retries self pinned) = location) as (Hoff & Hmode).
  { subst pinned. unfold StorageHosts_on_request.
    cbn [fmap option_fmap option_map].
    rewrite bool_decide_eq_true_2 by exact Hkey. cbn [negb].
    case_bool_decide as Hsame; cbn; [rewrite <- Hsame|]; split; reflexivity. }
  destruct (send_fixed self next rand pinned) as (Hall & Hret).
  { apply fails_over_false. right. left. exact Hoff. }
  rewrite Hmode in *. split; assumption.
Qed.

Lemma pinned_request_keeps_its_location_witness :
  let pinned :=
    snd (StorageHosts_on_request (Some two_hosts) (Some SECONDARY)
           (request_of "GET" NoBody with_failover)) in
  let run := send TablesRetryPolicy_default
               (scripted [answer 500; answer 503] (answer 200)) midpoint
               pinned in
  Forall (fun a => mode (sent_settings a) = SECONDARY
                   /\ sent_request a = http_request pinned) (attempts run)
  /\ forall response,
       result run = Returned response ->
       location_mode (http_response response) = Some SECONDARY.
Proof.
  cbv zeta.
  apply (pinned_request_keeps_its_location TablesRetryPolicy_default
           (scripted [answer 500; answer 503] (answer 200)) midpoint
           two_hosts SECONDARY (request_of "GET" NoBody with_failover)).
  eexists. vm_compute. reflexivity.
Defined.



(** * The client request id *)

(** X17: after [StorageHeadersPolicy.on_request], whatever the inherited
    policy did to the headers, the request carries the client request id
    given in the options (a fresh one when none or an empty one was given)
    and the current time under both [x-ms-date] and [Date]; and
    [on_response] accepts every response that echoes this id, or echoes
    none. *)
Theorem request_id_round_trip (inherited : Headers -> Headers)
    (current_time fresh : string) (client_request_id : option string)
    (headers response_headers : Headers) :
  let sent :=
    StorageHeadersPolicy_on_request inherited current_time fresh
      client_request_id headers in
  let id := request_id_or client_request_id fresh in
  sent !! "x-ms-client-request-id"%string = Some id
  /\ sent !! "x-ms-date"%string = Some current_time
  /\ sent !! "Date"%string = Some current_time
  /\ (id = fresh
      \/ (client_request_id = Some id /\ id <> EmptyString))
  /\ (response_headers !! "x-ms-client-request-id"%string = None
      \/ response_headers !! "x-ms-client-request-id"%string = Some id ->
      StorageHeadersPolicy_on_response sent response_headers = EchoAccepted).
Proof.
  cbv zeta. unfold StorageHeadersPolicy_on_request.
  set (id := request_id_or client_request_id fresh).
  split; [apply lookup_insert_eq|].
  split; [rewrite !lookup_insert_ne by discriminate; apply lookup_insert_eq|].
  split; [rewrite lookup_insert_ne by discriminate; apply lookup_insert_eq|].
  split.
  - subst id. unfold request_id_or.
    destruct client_request_id as [given|]; [|left; reflexivity].
    destruct (String.eqb_spec given EmptyString); [left; reflexivity|].
    right. split; [reflexivity|assumption].
  - intros Hecho. unfold StorageHeadersPolicy_on_response.
    rewrite lookup_insert_eq.
    destruct Hecho as [-> | ->]; [reflexivity|].
    rewrite bool_decide_eq_true_2 by reflexivity. reflexivity.
Qed.

(** X18: [StorageHeadersPolicy.on_response] returns normally exactly when the
    response echoes no client request id or echoes the one the request
    carries.  Otherwise it raises: the [AzureError] naming the two ids and
    the service request id when the response has an [x-ms-request-id]
    header, and a [KeyError] for that header when it has not.  A request
    that carries no id is at odds with any echo. *)
Theorem echo_check_outcomes (request_headers response_headers : Headers) :
  let key := "x-ms-client-request-id"%string in
  let check :=
    StorageHeadersPolicy_on_response request_headers response_headers in
  (check = EchoAccepted <->
   response_headers !! key = None
   \/ response_headers !! key = request_headers !! key)
  /\ (forall echoed sent service_id,
        check = EchoMismatch echoed sent service_id <->
        response_headers !! key = Some echoed
        /\ request_headers !! key = sent /\ sent <> Some echoed
        /\ response_headers !! "x-ms-request-id"%string = Some service_id)
  /\ (forall missing,
        check = EchoKeyError missing <->
        missing = "x-ms-request-id"%string
        /\ is_Some (response_headers !! key)
        /\ response_headers !! key <> request_headers !! key
        /\ response_headers !! missing = None).
Proof.
  cbv zeta. unfold StorageHeadersPolicy_on_response.
  destruct (response_headers !! "x-ms-client-request-id"%string)
    as [echoed|] eqn:Hecho;
    [case_bool_decide as Hsame; cbn [negb];
     [|destruct (response_headers !! "x-ms-request-id"%string)
         as [service|] eqn:Hservice]|];
    (split; [|split]); unfold is_Some;
    firstorder (try discriminate; try congruence; eauto).
Qed.

(** * Content validation *)

Lemma take_then_drop {A} (n : nat) (l : list A) :
  take n l ++ drop (length (take n l)) l = l.
Proof.
  rewrite length_take. destruct (Nat.le_gt_cases n (length l)) as [Hle|Hgt].
  - rewrite Nat.min_l by exact Hle. apply take_drop.
  - rewrite Nat.min_r by lia. rewrite take_ge, drop_ge by lia.
    apply app_nil_r.
Qed.

(** Reading in chunks feeds the hash all the bytes from the position on and
    leaves the object at its end. *)
Lemma update_chunks_all fuel : forall f hashed,
  (length (contents f) - position f < fuel)%nat ->
  update_chunks fuel f hashed
  = (hashed ++ drop (position f) (contents f),
     at_position (Nat.max (position f) (length (contents f))) f).
Proof.
  induction fuel as [|fuel IH]; intros f hashed Hfuel; [lia|].
  cbn [update_chunks]. unfold read_chunk.
  set (rest := drop (position f) (contents f)).
  assert (length rest = (length (contents f) - position f)%nat) as Hrest
    by (subst rest; apply length_drop).
  destruct (take 4096 rest) as [|b chunk] eqn:Hchunk.
  - assert (rest = []) as Hnil.
    { destruct rest; [reflexivity|discriminate]. }
    rewrite Hnil in *. cbn in Hrest. rewrite app_nil_r. cbn [length].
    f_equal. f_equal. lia.
  - assert (length (b :: chunk) = Nat.min 4096 (length rest)) as Hlen
      by (rewrite <- Hchunk; apply length_take).
    rewrite IH; cbn [at_position contents position].
    + f_equal.
      * rewrite <- app_assoc. f_equal.
        rewrite <- drop_drop. fold rest.
        rewrite <- (take_then_drop 4096 rest) at 2.
        rewrite Hchunk. reflexivity.
      * unfold at_position. cbn. f_equal. cbn [length] in *. lia.
    + cbn [length] in *. lia.
Qed.

(** X19: for a file-like object, [get_content_md5] hashes the bytes from
    the current position to the end, however they fall into chunks of 4096.
    When [seek] works, it gives the digest back and leaves the object with
    the same contents at the position [tell] reported, or at position 0 when
    [tell] raised; when [seek] raises, the result is [ValueError] and the
    object is left at its end.  Bytes are hashed as they are, and for any
    other data the result is [ValueError]. *)
Theorem content_md5_of_data (md5 : list Byte.byte -> list Byte.byte)
    (data : Data) :
  match data with
  | Bytes content => get_content_md5 md5 data = (inr (md5 content), data)
  | FileObject f =>
      get_content_md5 md5 data
      = if seek_raises f
        then (inl ValueError,
              FileObject
                (at_position (Nat.max (position f) (length (contents f))) f))
        else (inr (md5 (drop (position f) (contents f))),
              FileObject
                (at_position (if tell_raises f then 0%nat else position f) f))
  | OtherData => get_content_md5 md5 data = (inl ValueError, data)
  end.
Proof.
  destruct data as [content|f|]; try reflexivity.
  unfold get_content_md5. rewrite update_chunks_all by lia.
  cbn [app seek_raises at_position].
  destruct (seek_raises f); reflexivity.
Qed.

Lemma text_truthy_spec (s : option string) :
  text_truthy s = true <-> exists text, s = Some text /\ text <> EmptyString.
Proof.
  destruct s as [text|]; cbn.
  - destruct (String.eqb_spec text EmptyString) as [->|Hne]; cbn; split;
      try discriminate; eauto.
    intros (text' & [= <-] & Hne). contradiction.
  - split; [discriminate|]. intros (text & Hnone & _). discriminate.
Qed.



(** X21: with [validate_content] off, or on a GET, [on_request] hashes
    nothing: headers and data stay as they are.  The response of a GET with
    [validate_content] is checked against its own body: [on_response]
    returns normally exactly when validation is off, or the response has no
    (or an empty) [content-md5] header, or the header is the encoded digest
    of the body. *)
Theorem download_validation (md5 : list Byte.byte -> list Byte.byte)
    (b64 : list Byte.byte -> string) (validate_option : option bool)
    (verb : string) (data : Data) (headers : Headers)
    (context : ValidationContext) (response_headers : Headers)
    (body : list Byte.byte) :
  default false validate_option = false \/ verb = "GET"%string ->
  validate_content_md5 context = None ->
  let sent :=
    StorageContentValidation_on_request md5 b64 validate_option verb data
      headers context in
  validation_error sent = None
  /\ validated_headers sent = headers
  /\ validated_data sent = data
  /\ (StorageContentValidation_on_response md5 b64 (validated_context sent)
        response_headers body = None <->
      default false validate_option = false
      \/ text_truthy (response_headers !! "content-md5"%string) = false
      \/ response_headers !! "content-md5"%string = Some (b64 (md5 body))).
Proof.
  intros Hskip Hfresh. cbv zeta.
  unfold StorageContentValidation_on_request.
  assert (default false validate_option && negb (String.eqb verb "GET") = false)
    as ->.
  { destruct Hskip as [-> | ->]; [reflexivity|].
    rewrite String.eqb_refl. apply andb_false_r. }
  cbn [validation_error validated_headers validated_context validated_data].
  repeat split.
  - unfold StorageContentValidation_on_response.
    cbn [validate_content validate_content_md5 default].
    rewrite Hfresh. cbn [text_truthy get_content_md5].
    destruct (default false validate_option); [|auto]. cbn [andb].
    destruct (text_truthy (response_headers !! "content-md5"%string))
      eqn:Htruthy; [|auto].
    apply text_truthy_spec in Htruthy as (received & Hreceived & _).
    rewrite Hreceived. cbn [default from_option]. unfold id.
    destruct (String.eqb_spec received (b64 (md5 body))) as [->|Hne];
      cbn [negb]; [auto|discriminate].
  - unfold StorageContentValidation_on_response.
    cbn [validate_content validate_content_md5 default].
    rewrite Hfresh. cbn [text_truthy get_content_md5].
    destruct (default false validate_option); [|reflexivity]. cbn [andb].
    intros [H|[H|H]]; [discriminate| |].
    + rewrite H. reflexivity.
    + rewrite H. cbn [text_truthy default from_option]. unfold id.
      rewrite String.eqb_refl.
      destruct (negb (String.eqb (b64 (md5 body)) EmptyString)); reflexivity.
Qed.

Lemma download_validation_witness :
  let md5 : list Byte.byte -> list Byte.byte := fun bytes => rev bytes in
  let b64 : list Byte.byte -> string :=
    fun bytes => String.append "md5:" (String.string_of_list_byte bytes) in
  let sent :=
    StorageContentValidation_on_request md5 b64 (Some true) "GET" (Bytes [])
      ∅ (mkValidationContext None None) in
  StorageContentValidation_on_response md5 b64 (validated_context sent)
    (<["content-md5"%string := "md5:ba"%string]> ∅) [Byte.x61; Byte.x62] = None.
Proof.
  cbv zeta.
  destruct (download_validation (fun bytes => rev bytes)
              (fun bytes => String.append "md5:" (String.string_of_list_byte bytes))
              (Some true) "GET" (Bytes []) ∅ (mkValidationContext None None)
              (<["content-md5"%string := "md5:ba"%string]> ∅)
              [Byte.x61; Byte.x62])
    as (_ & _ & _ & Hiff).
  - right. reflexivity.
  - reflexivity.
  - apply Hiff. right. right. vm_compute. reflexivity.
Defined.

(** * Stream progress *)

Lemma after_first_app (sep : Ascii.ascii) (a b : string) :
  after_first sep a = None ->
  after_first sep (a ++ String sep b) = Some b.
Proof.
  induction a as [|c a IH]; intros Hnone.
  - change (after_first sep (String sep b) = Some b). cbn [after_first].
    rewrite Ascii.eqb_refl. reflexivity.
  - change (after_first sep (String c (a ++ String sep b)) = Some b).
    cbn [after_first] in *.
    destruct (Ascii.eqb c sep); [discriminate|]. exact (IH Hnone).
Qed.

Section Progress.

Context (int_of : string -> option Z).
Context (self_callback : option nat).
Context (context : Progress) (context_callback : option nat).
Context (given : Progress) (given_hook : option (option nat)).
Context (mode_option : option LocationMode).
Context (response : PipelineResponse).
Context (response_headers request_headers : Headers).

(** X22: for a response that [is_retry] accepts (judged in the mode of the
    option ["mode"], and as in [PRIMARY] when that option is absent), the
    hook counts nothing and reads no header, so it cannot fail: the
    counters written to the contexts are those it started from, each taken
    from the context unless it is missing or 0 there, and then from the
    options. *)
Theorem retried_response_counts_nothing :
  is_retry response (default PRIMARY mode_option) = true ->
  StorageResponseHook_send int_of self_callback context context_callback
    given given_hook mode_option response response_headers request_headers
  = inr (mkProgress
           (int_or (data_stream_total context) (data_stream_total given))
           (int_or (download_stream_current context)
                   (download_stream_current given))
           (int_or (upload_stream_current context)
                   (upload_stream_current given)),
         callback_or context_callback (default self_callback given_hook)).
Proof.
  intros Hretry. unfold StorageResponseHook_send.
  assert (match mode_option with
          | Some mode => is_retry response mode
          | None => is_retry response PRIMARY
          end = true) as ->
    by (destruct mode_option; exact Hretry).
  cbn [negb].
  destruct (int_or (download_stream_current context) _),
           (int_or (upload_stream_current context) _); reflexivity.
Qed.

(** X23: for a response that will not be retried, a download in progress
    advances by the [Content-Length] of the response (by 0 when the header
    is missing), and a total that is not known yet is taken from what
    follows the slash of [Content-Range], or, without that header, set to
    the bytes received so far; a known total is kept.  The upload counter is
    not touched. *)
Theorem download_progress_counts_response (current length : Z) :
  is_retry response (default PRIMARY mode_option) = false ->
  int_or (download_stream_current context) (download_stream_current given)
  = Some current ->
  content_length int_of response_headers = inr length ->
  let total :=
    int_or (data_stream_total context) (data_stream_total given) in
  let upload :=
    int_or (upload_stream_current context) (upload_stream_current given) in
  let callback :=
    callback_or context_callback (default self_callback given_hook) in
  let outcome :=
    StorageResponseHook_send int_of self_callback context context_callback
      given given_hook mode_option response response_headers request_headers in
  (forall known, total = Some known ->
     outcome = inr (mkProgress (Some known) (Some (current + length)) upload,
                    callback))
  /\ (total = None ->
      text_truthy (response_headers !! "Content-Range"%string) = false ->
      outcome = inr (mkProgress (Some (current + length))
                                (Some (current + length)) upload, callback))
  /\ (forall content_range,
        total = None ->
        response_headers !! "Content-Range"%string = Some content_range ->
        content_range <> EmptyString ->
        outcome
        = match range_total int_of content_range with
          | inl err => inl err
          | inr announced =>
              inr (mkProgress (Some announced) (Some (current + length)) upload,
                   callback)
          end).
Proof.
  intros Hfinal Hdownload Hlength. cbv zeta.
  unfold StorageResponseHook_send.
  assert (match mode_option with
          | Some mode => is_retry response mode
          | None => is_retry response PRIMARY
          end = false) as ->
    by (destruct mode_option; exact Hfinal).
  rewrite Hdownload, Hlength. cbn [negb].
  repeat split.
  - intros known ->. reflexivity.
  - intros -> ->. reflexivity.
  - intros content_range -> Hrange Hfull. rewrite Hrange.
    assert (text_truthy (Some content_range) = true) as ->
      by (apply text_truthy_spec; eauto).
    cbn [default from_option]. unfold id.
    destruct (range_total int_of content_range); reflexivity.
Qed.

(** X24: an upload is counted only when no download is: for a response that
    will not be retried, with no download counter and an upload counter, the
    upload advances by the [Content-Length] of the request (by 0 when the
    header is missing) and the total is left as it is. *)
Theorem upload_progress_counts_request (current length : Z) :
  is_retry response (default PRIMARY mode_option) = false ->
  int_or (download_stream_current context) (download_stream_current given)
  = None ->
  int_or (upload_stream_current context) (upload_stream_current given)
  = Some current ->
  content_length int_of request_headers = inr length ->
  StorageResponseHook_send int_of self_callback context context_callback
    given given_hook mode_option response response_headers request_headers
  = inr (mkProgress
           (int_or (data_stream_total context) (data_stream_total given))
           None (Some (current + length)),
         callback_or context_callback (default self_callback given_hook)).
Proof.
  intros Hfinal Hdownload Hupload Hlength.
  unfold StorageResponseHook_send.
  assert (match mode_option with
          | Some mode => is_retry response mode
          | None => is_retry response PRIMARY
          end = false) as ->
    by (destruct mode_option; exact Hfinal).
  rewrite Hdownload, Hupload, Hlength. reflexivity.
Qed.

(** X25: a counter that stands at 0 in the context counts as missing.  When
    the download counter is 0 in the context and the options do not give
    it, the hook does not count the response as a download, whatever its
    headers say, and writes [None] back for the counter. *)
Theorem zero_download_counter_is_dropped (progress : Progress)
    (callback : option nat) :
  download_stream_current context = Some 0 ->
  download_stream_current given = None ->
  StorageResponseHook_send int_of self_callback context context_callback
    given given_hook mode_option response response_headers request_headers
  = inr (progress, callback) ->
  download_stream_current progress = None
  /\ data_stream_total progress
     = int_or (data_stream_total context) (data_stream_total given).
Proof.
  intros Hzero Hnone. unfold StorageResponseHook_send.
  rewrite Hzero, Hnone. cbn [int_or Z.eqb].
  destruct (int_or (upload_stream_current context) _) as [current|];
    [destruct (negb _); [destruct (content_length _ _); [discriminate|]|]|];
    intros [= <- _]; split; reflexivity.
Qed.

End Progress.

(** X26: the total of a [Content-Range] header is what [int] makes of the
    text after the first slash that follows the first space: for a header
    made of a unit without a space, a space, a range without a slash, a
    slash and a total, it is [int] of the total; a header without a space,
    or without a slash after it, gives [IndexError]. *)
Theorem range_total_of_header (int_of : string -> option Z)
    (unit range total : string) :
  after_first (Ascii.ascii_of_nat 32) unit = None ->
  after_first (Ascii.ascii_of_nat 47) range = None ->
  range_total int_of
    (unit ++ String (Ascii.ascii_of_nat 32)
               (range ++ String (Ascii.ascii_of_nat 47) total))
  = match int_of total with
    | Some n => inr n
    | None => inl ValueError
    end
  /\ range_total int_of unit = inl IndexError
  /\ range_total int_of (unit ++ String (Ascii.ascii_of_nat 32) range)
     = inl IndexError.
Proof.
  intros Hunit Hrange. unfold range_total.
  rewrite !(after_first_app _ unit) by exact Hunit.
  rewrite (after_first_app _ range) by exact Hrange.
  rewrite Hunit, Hrange. repeat split.
Qed.

(** A retried response with a length that [int] cannot read. *)
Lemma retried_response_counts_nothing_witness :
  StorageResponseHook_send decimal None
    (mkProgress None (Some 10) None) None (mkProgress None None None) None
    None busy_response (<["Content-Length"%string := "many"%string]> ∅) ∅
  = inr (mkProgress None (Some 10) None, None).
Proof.
  apply (retried_response_counts_nothing decimal None
           (mkProgress None (Some 10) None) None (mkProgress None None None)
           None None busy_response
           (<["Content-Length"%string := "many"%string]> ∅) ∅).
  reflexivity.
Defined.

(** The first hundred bytes of a download of two hundred. *)
Lemma download_progress_counts_response_witness :
  StorageResponseHook_send decimal None
    (mkProgress None None None) None (mkProgress None (Some 0) None) None
    None ok_response partial_content ∅
  = inr (mkProgress (Some 200) (Some 100) None, None).
Proof.
  destruct (download_progress_counts_response decimal None
              (mkProgress None None None) None
              (mkProgress None (Some 0) None) None None ok_response
              partial_content ∅ 0 100) as (_ & _ & Hrange).
  - reflexivity.
  - reflexivity.
  - vm_compute. reflexivity.
  - rewrite (Hrange "bytes 0-99/200"%string); [| | |discriminate].
    + vm_compute. reflexivity.
    + reflexivity.
    + vm_compute. reflexivity.
Defined.

(** An upload of a hundred bytes on top of fifty. *)
Lemma upload_progress_counts_request_witness :
  StorageResponseHook_send decimal None
    (mkProgress (Some 150) None (Some 50)) None (mkProgress None None None)
    None None ok_response ∅ (<["Content-Length"%string := "100"%string]> ∅)
  = inr (mkProgress (Some 150) None (Some 150), None).
Proof.
  apply (upload_progress_counts_request decimal None
           (mkProgress (Some 150) None (Some 50)) None
           (mkProgress None None None) None None ok_response ∅
           (<["Content-Length"%string := "100"%string]> ∅) 50 100).
  - reflexivity.
  - reflexivity.
  - reflexivity.
  - vm_compute. reflexivity.
Defined.

(** A download that stands at 0 in the context. *)
Lemma zero_download_counter_is_dropped_witness :
  exists progress callback,
    StorageResponseHook_send decimal None
      (mkProgress None (Some 0) None) None (mkProgress None None None) None
      None ok_response partial_content ∅
    = inr (progress, callback)
    /\ download_stream_current progress = None
    /\ data_stream_total progress = None.
Proof.
  exists (mkProgress None None None), None.
  assert (StorageResponseHook_send decimal None
            (mkProgress None (Some 0) None) None (mkProgress None None None)
            None None ok_response partial_content ∅
          = inr (mkProgress None None None, None)) as Hrun
    by (vm_compute; reflexivity).
  split; [exact Hrun|].
  exact (zero_download_counter_is_dropped decimal None
           (mkProgress None (Some 0) None) None (mkProgress None None None)
           None None ok_response partial_content ∅
           (mkProgress None None None) None eq_refl eq_refl Hrun).
Defined.

Lemma range_total_of_header_witness :
  range_total decimal "bytes 0-99/200" = inr 200
  /\ range_total decimal "bytes" = inl IndexError
  /\ range_total decimal "bytes 0-99" = inl IndexError.
Proof.
  exact (range_total_of_header decimal "bytes" "0-99" "200" eq_refl eq_refl).
Defined.
